(** * hipBLAS client tests: testing_her2k and testing_sbmv_batched

    A shallow embedding of the two test routines of
    clients/include/testing_her2k.hpp and
    clients/include/testing_sbmv_batched.hpp.

    The routines are straight-line harness code around external calls
    (allocation, hipblasCreate / hipblasDestroy, hipMemcpy, the GPU routine,
    the CPU reference routine and the unit check).  Each routine is embedded
    as a program in a small state monad with early return and faults; the
    state holds the chronological trace of external calls, the state of the
    C random generator and the contents of the host vectors.  A run ends
    with a returned status or with a fault, the exception of a host vector
    constructed with a negative size.  What the outside world
    answers (null device pointers, hipMemcpy results, the GPU status, the
    data copied back) is read from an environment record. *)

From Stdlib Require Import ZArith Lia Bool Ascii.
From stdpp Require Import base list list_numbers functions.

Local Open Scope Z_scope.

(** ** The C [int] and [size_t] arithmetic used by the routines *)

Definition int_min : Z := - 2 ^ 31.
Definition int_max : Z := 2 ^ 31 - 1.

Definition int_range (z : Z) : Prop := int_min <= z <= int_max.

(** Two's complement wrap-around of a 32-bit [int]. *)
Definition wrap (z : Z) : Z := (z + 2 ^ 31) mod 2 ^ 32 - 2 ^ 31.

Definition int_add (a b : Z) : Z := wrap (a + b).
Definition int_sub (a b : Z) : Z := wrap (a - b).
Definition int_mul (a b : Z) : Z := wrap (a * b).

(** Conversion of an [int] to the 64-bit [size_t], and the product
    [sizeof(T) * n] computed in [size_t]. *)
Definition to_size_t (z : Z) : Z := z mod 2 ^ 64.
Definition size_mul (a b : Z) : Z := (to_size_t a * to_size_t b) mod 2 ^ 64.

(** ** Enumerations of the library *)

(** Modelled from the spec: the status enumeration of the GPU library
    (declared in hipblas.h, which is not among the sources): success,
    invalid-value, allocation-failed, mapping-error and the remaining codes. *)
Inductive hipblasStatus_t : Type :=
| HIPBLAS_STATUS_SUCCESS
| HIPBLAS_STATUS_NOT_INITIALIZED
| HIPBLAS_STATUS_ALLOC_FAILED
| HIPBLAS_STATUS_INVALID_VALUE
| HIPBLAS_STATUS_MAPPING_ERROR
| HIPBLAS_STATUS_EXECUTION_FAILED
| HIPBLAS_STATUS_INTERNAL_ERROR
| HIPBLAS_STATUS_NOT_SUPPORTED
| HIPBLAS_STATUS_ARCH_MISMATCH.

#[global] Instance hipblasStatus_eq_dec : EqDecision hipblasStatus_t.
Proof. solve_decision. Defined.

Inductive hipblasOperation_t : Type := HIPBLAS_OP_N | HIPBLAS_OP_T | HIPBLAS_OP_C.

#[global] Instance hipblasOperation_eq_dec : EqDecision hipblasOperation_t.
Proof. solve_decision. Defined.

Inductive hipblasFillMode_t : Type :=
| HIPBLAS_FILL_MODE_UPPER | HIPBLAS_FILL_MODE_LOWER | HIPBLAS_FILL_MODE_FULL.

(** [hipError_t] is a C enumeration; [hipSuccess] is its zero. *)
Definition hipError_t : Type := Z.
Definition hipSuccess : hipError_t := 0.

Inductive hipMemcpyKind : Type := hipMemcpyHostToDevice | hipMemcpyDeviceToHost.

(** ** Buffers *)

(** Host vectors of the two routines; the batched routine has one per
    batch index. *)
Inductive hbuf : Type :=
| hA | hB | hC | hC2
| hA_array (b : nat) | hx_array (b : nat) | hy_array (b : nat) | hres_array (b : nat).

#[global] Instance hbuf_eq_dec : EqDecision hbuf.
Proof. solve_decision. Defined.

(** Device allocations: the three matrices of her2k, the per-batch buffers
    of the [device_batch_vector]s, and the device arrays of pointers. *)
Inductive dbuf : Type :=
| dA | dB | dC
| bA_array (b : nat) | bx_array (b : nat) | by_array (b : nat)
| dA_array | dx_array | dy_array.

(** The host side of a pointer-array copy is the pointer table of a
    [device_batch_vector]. *)
Inductive ptr_table : Type := bA_ptrs | bx_ptrs | by_ptrs.

Inductive mem : Type :=
| Host (h : hbuf)
| Device (d : dbuf)
| Table (t : ptr_table).

(** ** What the routines take from outside *)

(** The element types, the C random generator, and the helpers of the
    client library that the routines call but that are declared elsewhere
    (utility.h, cblas_interface.h).  The routines are embedded over any
    implementation of them. *)
Class Externals : Type := {
  T : Type;                       (* element type of the buffers *)
  U : Type;                       (* type of her2k's beta *)
  double : Type;                  (* type of Arguments.alpha / beta *)
  T_zero : T;                     (* value-initialised element *)
  sizeof_T : Z;
  sizeof_ptr : Z;
  rng_state : Type;
  srand_state : Z -> rng_state;                (* state after srand(seed) *)
  random_generator : rng_state -> T * rng_state;
  char2hipblas_fill : ascii -> hipblasFillMode_t;
  char2hipblas_operation : ascii -> hipblasOperation_t;
  get_alpha_T : double -> T;
  get_beta_T : double -> T;
  get_beta_U : double -> U;
  (* CPU reference routines: the output buffer they leave behind *)
  cblas_her2k_result :
    hipblasFillMode_t -> hipblasOperation_t -> Z -> Z -> T ->
    list T -> Z -> list T -> Z -> U -> list T -> Z -> list T;
  cblas_sbmv_result :
    hipblasFillMode_t -> Z -> Z -> T -> list T -> Z -> list T -> Z -> T ->
    list T -> Z -> list T
}.

(** The fields of [Arguments] the two routines read. *)
Record Arguments `{Externals} : Type := {
  M : Z;
  N : Z;
  K : Z;
  lda : Z;
  ldb : Z;
  ldc : Z;
  incx : Z;
  incy : Z;
  batch_count : Z;
  uplo_option : ascii;
  transA_option : ascii;
  alpha : double;
  beta : double;
  timing : Z;
  unit_check : Z
}.

(** ** Events: the external calls a run performs, in order *)

Inductive event : Type :=
| EvHostAlloc (h : hbuf) (size : Z)
| EvDeviceAlloc (d : dbuf) (size : Z)
| EvCreate
| EvDestroy
| EvSrand (seed : Z)
| EvInit (h : hbuf) (rows cols ld : Z)
| EvMemcpy (dst src : mem) (bytes : Z) (kind : hipMemcpyKind)
| EvGetTime
| EvGpu (st : hipblasStatus_t)
| EvCblas
| EvUnitCheck.

Definition is_alloc (ev : event) : bool :=
  match ev with EvHostAlloc _ _ | EvDeviceAlloc _ _ => true | _ => false end.
Definition is_create (ev : event) : bool :=
  match ev with EvCreate => true | _ => false end.
Definition is_destroy (ev : event) : bool :=
  match ev with EvDestroy => true | _ => false end.
Definition is_gpu (ev : event) : bool :=
  match ev with EvGpu _ => true | _ => false end.
Definition is_d2h (ev : event) : bool :=
  match ev with EvMemcpy _ _ _ hipMemcpyDeviceToHost => true | _ => false end.
Definition is_cblas (ev : event) : bool :=
  match ev with EvCblas => true | _ => false end.
Definition is_unit_check (ev : event) : bool :=
  match ev with EvUnitCheck => true | _ => false end.

(** Number of events of a trace that satisfy [p]. *)
Fixpoint count (p : event -> bool) (tr : list event) : nat :=
  match tr with
  | [] => O
  | ev :: tr' => if p ev then S (count p tr') else count p tr'
  end.

(** ** The outside world *)

(** Answers of the external calls during one run. *)
Record env `{Externals} : Type := {
  rng_initial : rng_state;                   (* generator state on entry *)
  device_null : dbuf -> bool;                (* the allocation left a null pointer *)
  hipMemcpy_result : mem -> mem -> hipError_t;
  d2h_data : hbuf -> list T;                 (* what a device-to-host copy leaves
                                                in the host vector *)
  gpu_status : hipblasStatus_t               (* status of the GPU routine *)
}.

(** State threaded through a run. *)
#[projections(primitive)]
Record world `{Externals} : Type := World {
  trace : list event;
  rng : rng_state;
  host : hbuf -> list T
}.

Definition initial_world `{Externals} (e : env) : world :=
  {| trace := []; rng := rng_initial e; host := fun _ => [] |}.

(** ** State monad with early return and faults *)

Inductive flow (A : Type) : Type :=
| Next (a : A)                       (* fall through to the next statement *)
| Return (s : hipblasStatus_t)       (* a [return s;] was executed *)
| Fault.                             (* an exception was thrown *)
Arguments Next {A} a.
Arguments Return {A} s.
Arguments Fault {A}.

(** How a run of a routine ends: it returns a status to its caller, or an
    exception leaves it and no status is returned. *)
Inductive outcome : Type :=
| Returned (s : hipblasStatus_t)
| Faulted.

Coercion Returned : hipblasStatus_t >-> outcome.

#[global] Instance outcome_eq_dec : EqDecision outcome.
Proof. solve_decision. Defined.

Definition prog `{Externals} (A : Type) : Type := world -> flow A * world.

#[global] Instance prog_ret `{Externals} : MRet prog :=
  fun A (a : A) w => (Next a, w).

#[global] Instance prog_bind `{Externals} : MBind prog :=
  fun A B (k : A -> prog B) (m : prog A) w =>
    match m w with
    | (Next a, w') => k a w'
    | (Return s, w') => (Return s, w')
    | (Fault, w') => (Fault, w')
    end.

Section Primitives.
Context `{Externals}.

Definition return_ {A : Type} (s : hipblasStatus_t) : prog A :=
  fun w => (Return s, w).

(** An exception thrown by an external call.  Neither routine has a
    handler: no later statement of the routine runs, no status is returned,
    and the host vectors, which the routine owns, are destroyed as the
    exception leaves it. *)
Definition fault {A : Type} : prog A :=
  fun w => (Fault, {| trace := trace w; rng := rng w; host := fun _ => [] |}).

Definition emit (ev : event) : prog unit :=
  fun w => (Next tt, {| trace := trace w ++ [ev]; rng := rng w; host := host w |}).

Definition set_host (h : hbuf) (v : list T) : prog unit :=
  fun w => (Next tt, {| trace := trace w; rng := rng w; host := <[h := v]> (host w) |}).

Definition get_host (h : hbuf) : prog (list T) :=
  fun w => (Next (host w h), w).

Definition set_rng (g : rng_state) : prog unit :=
  fun w => (Next tt, {| trace := trace w; rng := g; host := host w |}).

Definition get_rng : prog rng_state :=
  fun w => (Next (rng w), w).

(** [if (c) stmt] with no else branch. *)
Definition when (c : bool) (m : prog unit) : prog unit :=
  if c then m else mret tt.

(** [for (int b = 0; b < n; b++) body], over the indices in order; an
    early return or a fault in the body leaves the loop. *)
Fixpoint for_each (bs : list nat) (body : nat -> prog unit) : prog unit :=
  match bs with
  | [] => mret tt
  | b :: bs' => body b ;; for_each bs' body
  end.

(** A routine body ends in a [return] or in a fault: it never falls
    through, so its result type is empty.  [run] gives the outcome and the
    final state. *)
Definition run (m : prog Empty_set) (w : world) : outcome * world :=
  match m w with
  | (Return s, w') => (Returned s, w')
  | (Fault, w') => (Faulted, w')
  | (Next x, _) => match x with end
  end.

(** *** External calls *)

(** Modelled from the spec: host_vector (declared in utility.h, not among
    the sources), a contiguous element array in host memory owned by the
    routine.  [host_vector<T> h(size)] holds [size] value-initialised
    elements.  The constructor takes a [size_t]; the routines pass an
    [int], and a negative one converts to a length no vector can have: the
    constructor throws and the vector is not built.  The trace keeps the
    [int] as passed.  Whether the memory for a non-negative size is there
    is not modelled. *)
Definition host_vector (h : hbuf) (size : Z) : prog unit :=
  emit (EvHostAlloc h size) ;;
  if size <? 0 then fault
  else set_host h (replicate (Z.to_nat size) T_zero).

(** Modelled from the spec: device_vector (declared in utility.h, not
    among the sources), a contiguous element array in device memory.
    [device_vector<T> d(size)] requests the allocation; whether the pointer
    it holds is null is the environment's answer. *)
Definition device_vector (d : dbuf) (size : Z) : prog unit :=
  emit (EvDeviceAlloc d size).

(** Modelled from the spec: device_batch_vector (hipblas_vector.hpp is
    not among the sources), a batch array: an ordered sequence of
    batch_count device buffers of the same shape.
    [device_batch_vector<T> b(batch_count, size)] requests one device
    buffer of [size] elements per batch index. *)
Definition device_batch_vector (d : nat -> dbuf) (batch_count size : Z) : prog unit :=
  for_each (seq 0 (Z.to_nat batch_count)) (fun b => emit (EvDeviceAlloc (d b) size)).

Definition hipblasCreate : prog unit := emit EvCreate.
Definition hipblasDestroy : prog unit := emit EvDestroy.

Definition srand (seed : Z) : prog unit :=
  emit (EvSrand seed) ;; set_rng (srand_state seed).

Definition get_time_us : prog unit := emit EvGetTime.

(** [v[idx] = x] on a host vector.  An index outside the vector is
    undefined behaviour in the source; the model leaves the vector as it
    is, and memory safety is stated on [hipblas_init_indices]. *)
Definition write_at (v : list T) (idx : Z) (x : T) : list T :=
  if (0 <=? idx) && (idx <? Z.of_nat (length v))
  then <[Z.to_nat idx := x]> v
  else v.

(** Modelled from the spec: hipblas_init (utility.h is not among the
    sources).  A matrix buffer is a flat array read with a leading
    dimension, the stride between consecutive columns: element (i, j) of
    an M x N matrix is cell [i + j * lda].  hipblas_init gives each of the
    M x N elements a value of the random generator; a vector of length n
    with increment inc is the 1 x n matrix with leading dimension inc.
    The index is computed in [int]. *)
Definition hipblas_init_indices (M N lda : Z) : list Z :=
  flat_map (fun i => map (fun j => int_add i (int_mul j lda)) (seqZ 0 N)) (seqZ 0 M).

Fixpoint fill_cells (idxs : list Z) (v : list T) (g : rng_state) : list T * rng_state :=
  match idxs with
  | [] => (v, g)
  | idx :: idxs' =>
      let (x, g') := random_generator g in
      fill_cells idxs' (write_at v idx x) g'
  end.

Definition hipblas_init (h : hbuf) (M N lda : Z) : prog unit :=
  emit (EvInit h M N lda) ;;
  v ← get_host h ;
  g ← get_rng ;
  let r := fill_cells (hipblas_init_indices M N lda) v g in
  set_host h r.1 ;;
  set_rng r.2.

(** [hipMemcpy(dst, src, bytes, kind)].  A device-to-host copy overwrites
    the host vector with what the environment delivers. *)
Definition hipMemcpy (e : env) (dst src : mem) (bytes : Z) (kind : hipMemcpyKind)
  : prog hipError_t :=
  emit (EvMemcpy dst src bytes kind) ;;
  match kind, dst with
  | hipMemcpyDeviceToHost, Host h => set_host h (d2h_data e h)
  | _, _ => mret tt
  end ;;
  mret (hipMemcpy_result e dst src).

(** The GPU routine ([hipblasHer2k] or [hipblasSbmvBatched]): its status
    is the environment's answer. *)
Definition hipblas_gpu (e : env) : prog hipblasStatus_t :=
  emit (EvGpu (gpu_status e)) ;;
  mret (gpu_status e).

(** Modelled from the spec: unit_check_general (unit.h is not among the
    sources) compares the two host buffers element by element; a mismatch
    is reported as a test failure, on a channel of its own, and does not
    change the control flow or the returned status. *)
Definition unit_check_general : prog unit := emit EvUnitCheck.

(** [x != 0] of a C condition. *)
Definition truthy (z : Z) : bool := negb (z =? 0).

End Primitives.

(** ** testing_her2k (clients/include/testing_her2k.hpp) *)

Section Her2k.
Context `{Externals}.

(** The argument sanity check of testing_her2k. *)
Definition her2k_invalid (N K lda ldb ldc : Z) (transA : hipblasOperation_t) : bool :=
  (N <? 0) || (K <? 0) || (ldc <? N)
  || (bool_decide (transA = HIPBLAS_OP_N) && ((lda <? N) || (ldb <? N)))
  || (bool_decide (transA <> HIPBLAS_OP_N) && ((lda <? K) || (ldb <? K))).

Definition her2k_K1 (N K : Z) (transA : hipblasOperation_t) : Z :=
  if bool_decide (transA = HIPBLAS_OP_N) then K else N.

Definition her2k_A_size (argus : Arguments) : Z :=
  int_mul (lda argus)
    (her2k_K1 (N argus) (K argus) (char2hipblas_operation (transA_option argus))).

(** [B_size] is computed from [lda], as in the source. *)
Definition her2k_B_size (argus : Arguments) : Z :=
  int_mul (lda argus)
    (her2k_K1 (N argus) (K argus) (char2hipblas_operation (transA_option argus))).

Definition her2k_C_size (argus : Arguments) : Z :=
  int_mul (ldc argus) (N argus).

Definition testing_her2k_body (e : env) (argus : Arguments) : prog Empty_set :=
  let N := N argus in
  let K := K argus in
  let lda := lda argus in
  let ldb := ldb argus in
  let ldc := ldc argus in
  let uplo := char2hipblas_fill (uplo_option argus) in
  let transA := char2hipblas_operation (transA_option argus) in
  if her2k_invalid N K lda ldb ldc transA
  then return_ HIPBLAS_STATUS_INVALID_VALUE
  else
    let K1 := her2k_K1 N K transA in
    let A_size := int_mul lda K1 in
    let B_size := int_mul lda K1 in
    let C_size := int_mul ldc N in
    host_vector hA A_size ;;
    host_vector hB B_size ;;
    host_vector hC C_size ;;
    host_vector hC2 C_size ;;
    device_vector dA A_size ;;
    device_vector dB B_size ;;
    device_vector dC C_size ;;
    let alpha := get_alpha_T (alpha argus) in
    let beta := get_beta_U (beta argus) in
    hipblasCreate ;;
    srand 1 ;;
    hipblas_init hA N K1 lda ;;
    hipblas_init hB N K1 ldb ;;
    hipblas_init hC N N ldc ;;
    hipMemcpy e (Device dA) (Host hA) (size_mul sizeof_T A_size) hipMemcpyHostToDevice ;;
    hipMemcpy e (Device dB) (Host hB) (size_mul sizeof_T B_size) hipMemcpyHostToDevice ;;
    hipMemcpy e (Device dC) (Host hC) (size_mul sizeof_T C_size) hipMemcpyHostToDevice ;;
    when (truthy (timing argus)) get_time_us ;;
    (* for(int iter = 0; iter < 1; iter++): one pass *)
    status ← hipblas_gpu e ;
    (if bool_decide (status <> HIPBLAS_STATUS_SUCCESS)
     then hipblasDestroy ;; return_ status
     else mret tt) ;;
    hipMemcpy e (Host hC2) (Device dC) (size_mul sizeof_T C_size) hipMemcpyDeviceToHost ;;
    when (truthy (unit_check argus))
      (vA ← get_host hA ;
       vB ← get_host hB ;
       vC ← get_host hC ;
       emit EvCblas ;;
       set_host hC (cblas_her2k_result uplo transA N K alpha vA lda vB ldb beta vC ldc) ;;
       when (truthy (unit_check argus)) unit_check_general) ;;
    hipblasDestroy ;;
    return_ HIPBLAS_STATUS_SUCCESS.

Definition testing_her2k (e : env) (argus : Arguments) : outcome * world :=
  run (testing_her2k_body e argus) (initial_world e).

End Her2k.

(** ** testing_sbmv_batched (clients/include/testing_sbmv_batched.hpp) *)

Section SbmvBatched.
Context `{Externals}.

(** The argument sanity check of testing_sbmv_batched. *)
Definition sbmv_batched_invalid (M K lda incx incy batch_count : Z) : bool :=
  (M <? 0) || (K <? 0) || (lda <? int_add K 1) || (incx =? 0) || (incy =? 0)
  || (batch_count <? 0).

Definition sbmv_A_size (argus : Arguments) : Z := int_mul (lda argus) (M argus).
Definition sbmv_X_size (argus : Arguments) : Z := int_mul (M argus) (incx argus).
Definition sbmv_Y_size (argus : Arguments) : Z := int_mul (M argus) (incy argus).

(** The allocation test after the device buffers are set up. *)
Definition sbmv_alloc_failed (e : env) (last : nat) (A_size X_size Y_size : Z) : bool :=
  device_null e dA_array || device_null e dx_array || device_null e dy_array
  || (device_null e (bA_array last) && truthy A_size)
  || (device_null e (bx_array last) && truthy X_size)
  || (device_null e (by_array last) && truthy Y_size).

(** One pass of the initialisation loop, for batch index [b]. *)
Definition sbmv_init_batch (e : env) (M lda incx incy A_size X_size Y_size : Z)
    (b : nat) : prog unit :=
  host_vector (hA_array b) A_size ;;
  host_vector (hx_array b) X_size ;;
  host_vector (hy_array b) Y_size ;;
  (vy ← get_host (hy_array b) ; set_host (hres_array b) vy) ;;
  srand 1 ;;
  hipblas_init (hA_array b) M M lda ;;
  hipblas_init (hx_array b) 1 M incx ;;
  hipblas_init (hy_array b) 1 M incy ;;
  err_A ← hipMemcpy e (Device (bA_array b)) (Host (hA_array b))
             (size_mul sizeof_T A_size) hipMemcpyHostToDevice ;
  err_x ← hipMemcpy e (Device (bx_array b)) (Host (hx_array b))
             (size_mul sizeof_T X_size) hipMemcpyHostToDevice ;
  err_y ← hipMemcpy e (Device (by_array b)) (Host (hy_array b))
             (size_mul sizeof_T Y_size) hipMemcpyHostToDevice ;
  if negb (err_A =? hipSuccess) || negb (err_x =? hipSuccess) || negb (err_y =? hipSuccess)
  then hipblasDestroy ;; return_ HIPBLAS_STATUS_MAPPING_ERROR
  else mret tt.

(** The initialisation loop [for(int b = 0; b < batch_count; b++)]. *)
Definition sbmv_init_loop (e : env) (M lda incx incy A_size X_size Y_size : Z)
    (batch_count : Z) : prog unit :=
  for_each (seq 0 (Z.to_nat batch_count))
    (sbmv_init_batch e M lda incx incy A_size X_size Y_size).

(** The loop copying the output of each batch from device to host. *)
Definition sbmv_copy_back (e : env) (Y_size batch_count : Z) : prog unit :=
  for_each (seq 0 (Z.to_nat batch_count)) (fun b =>
    hipMemcpy e (Host (hres_array b)) (Device (by_array b))
      (size_mul sizeof_T Y_size) hipMemcpyDeviceToHost ;;
    mret tt).

(** The loop running the CPU reference routine on each batch. *)
Definition sbmv_cblas_loop (uplo : hipblasFillMode_t) (M K : Z) (alpha : T)
    (lda incx : Z) (beta : T) (incy batch_count : Z) : prog unit :=
  for_each (seq 0 (Z.to_nat batch_count)) (fun b =>
    vA ← get_host (hA_array b) ;
    vx ← get_host (hx_array b) ;
    vy ← get_host (hy_array b) ;
    emit EvCblas ;;
    set_host (hy_array b)
      (cblas_sbmv_result uplo M K alpha vA lda vx incx beta vy incy)).

Definition testing_sbmv_batched_body (e : env) (argus : Arguments)
  : prog Empty_set :=
  let M := M argus in
  let K := K argus in
  let lda := lda argus in
  let incx := incx argus in
  let incy := incy argus in
  let A_size := int_mul lda M in
  let X_size := int_mul M incx in
  let Y_size := int_mul M incy in
  let batch_count := batch_count argus in
  let uplo := char2hipblas_fill (uplo_option argus) in
  if sbmv_batched_invalid M K lda incx incy batch_count
  then return_ HIPBLAS_STATUS_INVALID_VALUE
  else if batch_count =? 0
  then return_ HIPBLAS_STATUS_SUCCESS
  else
    hipblasCreate ;;
    let alpha := get_alpha_T (alpha argus) in
    let beta := get_beta_T (beta argus) in
    (* hA_array, hx_array, hy_array, hres_array: batch_count empty vectors *)
    device_batch_vector bA_array batch_count A_size ;;
    device_batch_vector bx_array batch_count X_size ;;
    device_batch_vector by_array batch_count Y_size ;;
    device_vector dA_array batch_count ;;
    device_vector dx_array batch_count ;;
    device_vector dy_array batch_count ;;
    let last := int_sub batch_count 1 in
    (if sbmv_alloc_failed e (Z.to_nat last) A_size X_size Y_size
     then hipblasDestroy ;; return_ HIPBLAS_STATUS_ALLOC_FAILED
     else mret tt) ;;
    srand 1 ;;
    sbmv_init_loop e M lda incx incy A_size X_size Y_size batch_count ;;
    err_A ← hipMemcpy e (Device dA_array) (Table bA_ptrs)
               (size_mul batch_count sizeof_ptr) hipMemcpyHostToDevice ;
    err_x ← hipMemcpy e (Device dx_array) (Table bx_ptrs)
               (size_mul batch_count sizeof_ptr) hipMemcpyHostToDevice ;
    err_y ← hipMemcpy e (Device dy_array) (Table by_ptrs)
               (size_mul batch_count sizeof_ptr) hipMemcpyHostToDevice ;
    (if negb (err_A =? hipSuccess) || negb (err_x =? hipSuccess)
        || negb (err_y =? hipSuccess)
     then hipblasDestroy ;; return_ HIPBLAS_STATUS_MAPPING_ERROR
     else mret tt) ;;
    (* for(int iter = 0; iter < 1; iter++): one pass *)
    status ← hipblas_gpu e ;
    (if bool_decide (status <> HIPBLAS_STATUS_SUCCESS)
     then hipblasDestroy ;; return_ status
     else mret tt) ;;
    sbmv_copy_back e Y_size batch_count ;;
    when (truthy (unit_check argus))
      (sbmv_cblas_loop uplo M K alpha lda incx beta incy batch_count ;;
       when (truthy (unit_check argus)) unit_check_general) ;;
    hipblasDestroy ;;
    return_ HIPBLAS_STATUS_SUCCESS.

Definition testing_sbmv_batched (e : env) (argus : Arguments)
  : outcome * world :=
  run (testing_sbmv_batched_body e argus) (initial_world e).

End SbmvBatched.

(** ** A stand-in for the external helpers, to run the routines on
    concrete inputs: [int] elements, a linear congruential generator, and
    CPU reference routines that leave their output buffer as it is. *)

Definition sample_operation (c : ascii) : hipblasOperation_t :=
  if Ascii.eqb c "N" then HIPBLAS_OP_N
  else if Ascii.eqb c "T" then HIPBLAS_OP_T
  else HIPBLAS_OP_C.

Definition sample_fill (c : ascii) : hipblasFillMode_t :=
  if Ascii.eqb c "U" then HIPBLAS_FILL_MODE_UPPER
  else if Ascii.eqb c "L" then HIPBLAS_FILL_MODE_LOWER
  else HIPBLAS_FILL_MODE_FULL.

Definition sample_rand (g : Z) : Z * Z :=
  let g' := (g * 1103515245 + 12345) mod 2 ^ 31 in (g' mod 10 + 1, g').

Definition sample_externals : Externals := {|
  T := Z; U := Z; double := Z; T_zero := 0;
  sizeof_T := 4; sizeof_ptr := 8;
  rng_state := Z;
  srand_state := fun seed => seed;
  random_generator := sample_rand;
  char2hipblas_fill := sample_fill;
  char2hipblas_operation := sample_operation;
  get_alpha_T := fun a => a;
  get_beta_T := fun b => b;
  get_beta_U := fun b => b;
  cblas_her2k_result := fun _ _ _ _ _ _ _ _ _ _ vC _ => vC;
  cblas_sbmv_result := fun _ _ _ _ _ _ _ _ _ vy _ => vy
|}.

(** An environment in which every external call succeeds. *)
Definition sample_env : @env sample_externals :=
  @Build_env sample_externals
    0                          (* rng_initial *)
    (fun _ => false)           (* device_null *)
    (fun _ _ => hipSuccess)    (* hipMemcpy_result *)
    (fun _ => [])              (* d2h_data *)
    HIPBLAS_STATUS_SUCCESS.    (* gpu_status *)

(** Arguments in the order M N K lda ldb ldc incx incy batch_count
    uplo_option transA_option alpha beta timing unit_check. *)
Definition sample_arguments : @Arguments sample_externals :=
  @Build_Arguments sample_externals 2 2 2 3 3 2 1 1 2 "U" "N" 1 1 0 1.

(** Further inputs, with the arguments in the same order. *)
Definition negative_K_arguments : @Arguments sample_externals :=
  @Build_Arguments sample_externals 2 2 (-1) 3 3 2 1 1 2 "U" "N" 1 1 0 1.

Definition zero_incx_arguments : @Arguments sample_externals :=
  @Build_Arguments sample_externals 2 2 2 3 3 2 0 1 2 "U" "N" 1 1 0 1.

Definition zero_batch_arguments : @Arguments sample_externals :=
  @Build_Arguments sample_externals 2 2 2 3 3 2 1 1 0 "U" "N" 1 1 0 1.

(** An environment whose GPU routine reports a failure. *)
Definition gpu_failure_env : @env sample_externals :=
  @Build_env sample_externals 0 (fun _ => false) (fun _ _ => hipSuccess) (fun _ => [])
    HIPBLAS_STATUS_EXECUTION_FAILED.

(** Arguments with N = 0 that pass both sanity checks. *)
Definition zero_N_arguments : @Arguments sample_externals :=
  @Build_Arguments sample_externals 2 0 1 2 1 1 1 1 2 "U" "N" 1 1 0 1.

(** An environment in which every hipMemcpy fails while the GPU routine
    reports success. *)
Definition copy_failure_env : @env sample_externals :=
  @Build_env sample_externals 0 (fun _ => false) (fun _ _ => 1) (fun _ => [])
    HIPBLAS_STATUS_SUCCESS.

(** An environment in which only the copies into host memory fail. *)
Definition copy_back_failure_env : @env sample_externals :=
  @Build_env sample_externals 0 (fun _ => false)
    (fun dst _ => match dst with Host _ => 1 | _ => hipSuccess end) (fun _ => [])
    HIPBLAS_STATUS_SUCCESS.

(** Arguments accepted by testing_her2k with ldb > lda:
    N = 2, K = 2, lda = 2, ldb = 3, ldc = 2, transA = N. *)
Definition wide_ldb_arguments : @Arguments sample_externals :=
  @Build_Arguments sample_externals 2 2 2 2 3 2 1 1 2 "U" "N" 1 1 0 1.

(** Arguments accepted by testing_sbmv_batched with a negative increment:
    M = 2, K = 0, lda = 1, incx = -1, incy = 1, batch_count = 1. *)
Definition negative_incx_arguments : @Arguments sample_externals :=
  @Build_Arguments sample_externals 2 2 0 1 1 2 (-1) 1 1 "U" "N" 1 1 0 1.

(** * Vocabulary of the properties *)

(** ** The phases of a run *)

(** Events of the set-up phase: allocation, seeding, initialisation,
    host-to-device copies, the timer. *)
Definition is_setup (ev : event) : bool :=
  match ev with
  | EvHostAlloc _ _ | EvDeviceAlloc _ _ | EvSrand _ | EvInit _ _ _ _
  | EvMemcpy _ _ _ hipMemcpyHostToDevice | EvGetTime => true
  | _ => false
  end.

(** Events of the checking phase: the copy back, the CPU reference routine,
    the unit check. *)
Definition is_check (ev : event) : bool :=
  match ev with
  | EvMemcpy _ _ _ hipMemcpyDeviceToHost | EvCblas | EvUnitCheck => true
  | _ => false
  end.

(** The ways a run can go, as its outcome and its trace: the four ways of
    returning a status, and a fault during the set-up, before or after
    hipblasCreate. *)
Inductive run_shape : outcome -> list event -> Prop :=
| shape_quick_return (s : hipblasStatus_t) :
    s = HIPBLAS_STATUS_INVALID_VALUE \/ s = HIPBLAS_STATUS_SUCCESS ->
    run_shape s []
| shape_setup_failed (s : hipblasStatus_t) (pre seg : list event) :
    Forall (fun ev => is_setup ev = true) pre ->
    Forall (fun ev => is_setup ev = true) seg ->
    s = HIPBLAS_STATUS_ALLOC_FAILED \/ s = HIPBLAS_STATUS_MAPPING_ERROR ->
    run_shape s (pre ++ EvCreate :: seg ++ [EvDestroy])
| shape_gpu_failed (s : hipblasStatus_t) (pre seg : list event) :
    Forall (fun ev => is_setup ev = true) pre ->
    Forall (fun ev => is_setup ev = true) seg ->
    s <> HIPBLAS_STATUS_SUCCESS ->
    run_shape s (pre ++ EvCreate :: seg ++ [EvGpu s; EvDestroy])
| shape_completed (pre seg post : list event) :
    Forall (fun ev => is_setup ev = true) pre ->
    Forall (fun ev => is_setup ev = true) seg ->
    Forall (fun ev => is_check ev = true) post ->
    run_shape HIPBLAS_STATUS_SUCCESS
      (pre ++ EvCreate :: seg ++ EvGpu HIPBLAS_STATUS_SUCCESS :: post ++ [EvDestroy])
| shape_faulted_before (pre : list event) :
    Forall (fun ev => is_setup ev = true) pre ->
    run_shape Faulted pre
| shape_faulted_after (pre seg : list event) :
    Forall (fun ev => is_setup ev = true) pre ->
    Forall (fun ev => is_setup ev = true) seg ->
    run_shape Faulted (pre ++ EvCreate :: seg).

(** One of three sizes is negative. *)
Definition sizes_negative (A_size X_size Y_size : Z) : bool :=
  (A_size <? 0) || (X_size <? 0) || (Y_size <? 0).

Section TraceVocabulary.
Context `{Externals}.
Variables (e : env) (argus : Arguments).

(** The set-up events of testing_her2k before and after hipblasCreate. *)
Definition her2k_allocations : list event :=
  [EvHostAlloc hA (her2k_A_size argus); EvHostAlloc hB (her2k_B_size argus);
   EvHostAlloc hC (her2k_C_size argus); EvHostAlloc hC2 (her2k_C_size argus);
   EvDeviceAlloc dA (her2k_A_size argus); EvDeviceAlloc dB (her2k_B_size argus);
   EvDeviceAlloc dC (her2k_C_size argus)].

Definition her2k_setup : list event :=
  let K1 := her2k_K1 (N argus) (K argus) (char2hipblas_operation (transA_option argus)) in
  [EvSrand 1;
   EvInit hA (N argus) K1 (lda argus);
   EvInit hB (N argus) K1 (ldb argus);
   EvInit hC (N argus) (N argus) (ldc argus);
   EvMemcpy (Device dA) (Host hA) (size_mul sizeof_T (her2k_A_size argus))
     hipMemcpyHostToDevice;
   EvMemcpy (Device dB) (Host hB) (size_mul sizeof_T (her2k_B_size argus))
     hipMemcpyHostToDevice;
   EvMemcpy (Device dC) (Host hC) (size_mul sizeof_T (her2k_C_size argus))
     hipMemcpyHostToDevice]
  ++ (if truthy (timing argus) then [EvGetTime] else []).

Definition her2k_check : list event :=
  EvMemcpy (Host hC2) (Device dC) (size_mul sizeof_T (her2k_C_size argus))
    hipMemcpyDeviceToHost
  :: (if truthy (unit_check argus) then [EvCblas; EvUnitCheck] else []).

Definition her2k_accepted : Prop :=
  her2k_invalid (N argus) (K argus) (lda argus) (ldb argus) (ldc argus)
    (char2hipblas_operation (transA_option argus)) = false.

(** One of the sizes testing_her2k passes to host_vector is negative. *)
Definition her2k_size_negative : bool :=
  (her2k_A_size argus <? 0) || (her2k_C_size argus <? 0).

(** The host allocations of testing_her2k up to and including the first
    with a negative size, when there is one: hA, or hC after hA and hB. *)
Definition her2k_fault_events : list event :=
  EvHostAlloc hA (her2k_A_size argus)
  :: (if her2k_A_size argus <? 0 then []
      else [EvHostAlloc hB (her2k_B_size argus); EvHostAlloc hC (her2k_C_size argus)]).

(** The outcome of testing_her2k as a function of the arguments and of
    the status of the GPU routine. *)
Definition her2k_outcome : outcome :=
  if her2k_invalid (N argus) (K argus) (lda argus) (ldb argus) (ldc argus)
       (char2hipblas_operation (transA_option argus))
  then Returned HIPBLAS_STATUS_INVALID_VALUE
  else if her2k_size_negative then Faulted
  else Returned (gpu_status e).

(** The device buffers of testing_sbmv_batched, in allocation order. *)
Definition sbmv_device_allocations : list event :=
  map (fun b => EvDeviceAlloc (bA_array b) (sbmv_A_size argus))
      (seq 0 (Z.to_nat (batch_count argus)))
  ++ map (fun b => EvDeviceAlloc (bx_array b) (sbmv_X_size argus))
         (seq 0 (Z.to_nat (batch_count argus)))
  ++ map (fun b => EvDeviceAlloc (by_array b) (sbmv_Y_size argus))
         (seq 0 (Z.to_nat (batch_count argus)))
  ++ [EvDeviceAlloc dA_array (batch_count argus);
      EvDeviceAlloc dx_array (batch_count argus);
      EvDeviceAlloc dy_array (batch_count argus)].

(** The copies of the three pointer tables. *)
Definition sbmv_pointer_copies : list event :=
  [EvMemcpy (Device dA_array) (Table bA_ptrs)
     (size_mul (batch_count argus) sizeof_ptr) hipMemcpyHostToDevice;
   EvMemcpy (Device dx_array) (Table bx_ptrs)
     (size_mul (batch_count argus) sizeof_ptr) hipMemcpyHostToDevice;
   EvMemcpy (Device dy_array) (Table by_ptrs)
     (size_mul (batch_count argus) sizeof_ptr) hipMemcpyHostToDevice].

(** The events after a successful GPU call. *)
Definition sbmv_copy_back_events : list event :=
  map (fun b => EvMemcpy (Host (hres_array b)) (Device (by_array b))
                  (size_mul sizeof_T (sbmv_Y_size argus)) hipMemcpyDeviceToHost)
      (seq 0 (Z.to_nat (batch_count argus))).

Definition sbmv_check : list event :=
  sbmv_copy_back_events
  ++ (if truthy (unit_check argus)
      then map (fun _ => EvCblas) (seq 0 (Z.to_nat (batch_count argus))) ++ [EvUnitCheck]
      else []).

(** The test after the three copies of batch [b]. *)
Definition sbmv_batch_copy_failed (b : nat) : bool :=
  negb (hipMemcpy_result e (Device (bA_array b)) (Host (hA_array b)) =? hipSuccess)
  || negb (hipMemcpy_result e (Device (bx_array b)) (Host (hx_array b)) =? hipSuccess)
  || negb (hipMemcpy_result e (Device (by_array b)) (Host (hy_array b)) =? hipSuccess).

(** The test after the three copies of the pointer tables. *)
Definition sbmv_pointer_copy_failed : bool :=
  negb (hipMemcpy_result e (Device dA_array) (Table bA_ptrs) =? hipSuccess)
  || negb (hipMemcpy_result e (Device dx_array) (Table bx_ptrs) =? hipSuccess)
  || negb (hipMemcpy_result e (Device dy_array) (Table by_ptrs) =? hipSuccess).

(** One of the sizes a pass of the initialisation loop passes to
    host_vector is negative. *)
Definition sbmv_size_negative : bool :=
  sizes_negative (sbmv_A_size argus) (sbmv_X_size argus) (sbmv_Y_size argus).

(** The status testing_sbmv_batched returns when no size is negative, as
    a function of the arguments and of the answers of the environment. *)
Definition sbmv_status : hipblasStatus_t :=
  if sbmv_batched_invalid (M argus) (K argus) (lda argus) (incx argus) (incy argus)
       (batch_count argus)
  then HIPBLAS_STATUS_INVALID_VALUE
  else if batch_count argus =? 0 then HIPBLAS_STATUS_SUCCESS
  else if sbmv_alloc_failed e (Z.to_nat (int_sub (batch_count argus) 1))
            (sbmv_A_size argus) (sbmv_X_size argus) (sbmv_Y_size argus)
  then HIPBLAS_STATUS_ALLOC_FAILED
  else if existsb sbmv_batch_copy_failed (seq 0 (Z.to_nat (batch_count argus)))
  then HIPBLAS_STATUS_MAPPING_ERROR
  else if sbmv_pointer_copy_failed then HIPBLAS_STATUS_MAPPING_ERROR
  else gpu_status e.

(** The outcome of testing_sbmv_batched: the three early returns before
    the initialisation loop, a fault in its first pass when a size is
    negative, and otherwise the status above. *)
Definition sbmv_outcome : outcome :=
  if sbmv_batched_invalid (M argus) (K argus) (lda argus) (incx argus) (incy argus)
       (batch_count argus)
  then Returned HIPBLAS_STATUS_INVALID_VALUE
  else if batch_count argus =? 0 then Returned HIPBLAS_STATUS_SUCCESS
  else if sbmv_alloc_failed e (Z.to_nat (int_sub (batch_count argus) 1))
            (sbmv_A_size argus) (sbmv_X_size argus) (sbmv_Y_size argus)
  then Returned HIPBLAS_STATUS_ALLOC_FAILED
  else if sbmv_size_negative then Faulted
  else Returned sbmv_status.

End TraceVocabulary.

Section LoopVocabulary.
Context `{Externals}.

(** What one pass or a whole loop did, when early returns destroy the
    handle: set-up events only, then [EvDestroy] on an early return with
    the mapping-error status, and nothing more on a fault. *)
Definition setup_step (r : flow unit * world) (w : world) : Prop :=
  exists seg, Forall (fun ev => is_setup ev = true) seg /\
    match r with
    | (Next _, w') => trace w' = trace w ++ seg
    | (Return s, w') =>
        s = HIPBLAS_STATUS_MAPPING_ERROR /\ trace w' = trace w ++ seg ++ [EvDestroy]
    | (Fault, w') => trace w' = trace w ++ seg
    end.

(** The events of one pass of the initialisation loop, up to the test of
    the three copies. *)
Definition sbmv_batch_setup (M lda incx incy A_size X_size Y_size : Z) (b : nat)
  : list event :=
  [EvHostAlloc (hA_array b) A_size;
   EvHostAlloc (hx_array b) X_size;
   EvHostAlloc (hy_array b) Y_size;
   EvSrand 1;
   EvInit (hA_array b) M M lda;
   EvInit (hx_array b) 1 M incx;
   EvInit (hy_array b) 1 M incy;
   EvMemcpy (Device (bA_array b)) (Host (hA_array b)) (size_mul sizeof_T A_size)
     hipMemcpyHostToDevice;
   EvMemcpy (Device (bx_array b)) (Host (hx_array b)) (size_mul sizeof_T X_size)
     hipMemcpyHostToDevice;
   EvMemcpy (Device (by_array b)) (Host (hy_array b)) (size_mul sizeof_T Y_size)
     hipMemcpyHostToDevice].

(** The host allocations of a pass up to and including the first with a
    negative size, when there is one. *)
Definition sbmv_fault_events (A_size X_size Y_size : Z) (b : nat) : list event :=
  EvHostAlloc (hA_array b) A_size
  :: (if A_size <? 0 then []
      else EvHostAlloc (hx_array b) X_size
           :: (if X_size <? 0 then [] else [EvHostAlloc (hy_array b) Y_size])).

End LoopVocabulary.

Section InitVocabulary.
Context `{Externals}.
Variables (M lda incx incy A_size X_size Y_size : Z).

(** The three vectors one pass builds, each with the generator state it
    leaves: the pass starts from [srand(1)] and from fresh vectors. *)
Definition sbmv_init_A : list T * rng_state :=
  fill_cells (hipblas_init_indices M M lda)
    (replicate (Z.to_nat A_size) T_zero) (srand_state 1).

Definition sbmv_init_x : list T * rng_state :=
  fill_cells (hipblas_init_indices 1 M incx)
    (replicate (Z.to_nat X_size) T_zero) sbmv_init_A.2.

Definition sbmv_init_y : list T * rng_state :=
  fill_cells (hipblas_init_indices 1 M incy)
    (replicate (Z.to_nat Y_size) T_zero) sbmv_init_x.2.

(** The host state a pass for batch [b] leaves, whether or not its copies
    succeeded. *)
Definition sbmv_batch_host (b : nat) (h0 : hbuf -> list T) : hbuf -> list T :=
  <[hy_array b := sbmv_init_y.1]>
    (<[hx_array b := sbmv_init_x.1]>
       (<[hA_array b := sbmv_init_A.1]>
          (<[hres_array b := replicate (Z.to_nat Y_size) T_zero]>
             (<[hy_array b := replicate (Z.to_nat Y_size) T_zero]>
                (<[hx_array b := replicate (Z.to_nat X_size) T_zero]>
                   (<[hA_array b := replicate (Z.to_nat A_size) T_zero]> h0)))))).

(** The vectors of batch [b] are the initial ones. *)
Definition batch_initialised (hst : hbuf -> list T) (b : nat) : Prop :=
  hst (hA_array b) = sbmv_init_A.1 /\
  hst (hx_array b) = sbmv_init_x.1 /\
  hst (hy_array b) = sbmv_init_y.1.

End InitVocabulary.

(** [argus] with its field N replaced. *)
Definition with_N `{Externals} (n : Z) (argus : Arguments) : Arguments :=
  {| M := M argus; N := n; K := K argus;
     lda := lda argus; ldb := ldb argus; ldc := ldc argus;
     incx := incx argus; incy := incy argus; batch_count := batch_count argus;
     uplo_option := uplo_option argus; transA_option := transA_option argus;
     alpha := alpha argus; beta := beta argus;
     timing := timing argus; unit_check := unit_check argus |}.

(** ** The exact trace of testing_sbmv_batched *)

(** The passes a loop executes when it leaves at the first index whose pass
    fails: the indices up to and including that one. *)
Fixpoint passes_run (failed : nat -> bool) (bs : list nat) : list nat :=
  match bs with
  | [] => []
  | b :: bs' => b :: (if failed b then [] else passes_run failed bs')
  end.

Section ExactTrace.
Context `{Externals}.
Variables (e : env) (argus : Arguments).

Definition sbmv_accepted : Prop :=
  sbmv_batched_invalid (M argus) (K argus) (lda argus) (incx argus) (incy argus)
    (batch_count argus) = false.

(** The events of the initialisation loop, the final hipblasDestroy of an
    early return apart. *)
Definition sbmv_init_events : list event :=
  flat_map
    (sbmv_batch_setup (M argus) (lda argus) (incx argus) (incy argus)
       (sbmv_A_size argus) (sbmv_X_size argus) (sbmv_Y_size argus))
    (passes_run (sbmv_batch_copy_failed e) (seq 0 (Z.to_nat (batch_count argus)))).

(** The trace of a run, from the arguments and the answers of the
    environment.  With a negative size the run ends in the first pass of
    the initialisation loop, at the faulting allocation. *)
Definition sbmv_trace : list event :=
  if sbmv_batched_invalid (M argus) (K argus) (lda argus) (incx argus) (incy argus)
       (batch_count argus)
  then []
  else if batch_count argus =? 0 then []
  else
    EvCreate :: sbmv_device_allocations argus
    ++ (if sbmv_alloc_failed e (Z.to_nat (int_sub (batch_count argus) 1))
             (sbmv_A_size argus) (sbmv_X_size argus) (sbmv_Y_size argus)
        then [EvDestroy]
        else if sbmv_size_negative argus
        then
          EvSrand 1
          :: sbmv_fault_events (sbmv_A_size argus) (sbmv_X_size argus)
               (sbmv_Y_size argus) 0
        else
          EvSrand 1 :: sbmv_init_events
          ++ (if existsb (sbmv_batch_copy_failed e)
                   (seq 0 (Z.to_nat (batch_count argus)))
              then [EvDestroy]
              else
                sbmv_pointer_copies argus
                ++ (if sbmv_pointer_copy_failed e then [EvDestroy]
                    else
                      EvGpu (gpu_status e)
                      :: (if bool_decide (gpu_status e <> HIPBLAS_STATUS_SUCCESS)
                          then [] else sbmv_check argus)
                      ++ [EvDestroy]))).

End ExactTrace.

Definition is_host_alloc (ev : event) : bool :=
  match ev with EvHostAlloc _ _ => true | _ => false end.

(** ** Environments that differ in the answers on pointers and copies *)

(** [e] with other answers on null device pointers and on hipMemcpy. *)
Definition with_answers `{Externals} (nulls : dbuf -> bool)
    (copies : mem -> mem -> hipError_t) (e : env) : env :=
  {| rng_initial := rng_initial e;
     device_null := nulls;
     hipMemcpy_result := copies;
     d2h_data := d2h_data e;
     gpu_status := gpu_status e |}.

(** The index [last = batch_count - 1] of the allocation test. *)
Definition sbmv_last `{Externals} (argus : Arguments) : nat :=
  Z.to_nat (int_sub (batch_count argus) 1).

(** An environment in which one of the device arrays of pointers is null. *)
Definition null_pointer_array_env : @env sample_externals :=
  @Build_env sample_externals 0
    (fun d => match d with dx_array => true | _ => false end)
    (fun _ _ => hipSuccess) (fun _ => []) HIPBLAS_STATUS_SUCCESS.

(** An environment in which the copies of batch 1 into its device matrix
    fail. *)
Definition batch_1_copy_failure_env : @env sample_externals :=
  @Build_env sample_externals 0 (fun _ => false)
    (fun dst _ => match dst with Device (bA_array 1) => 1 | _ => hipSuccess end)
    (fun _ => []) HIPBLAS_STATUS_SUCCESS.

(** Arguments with three batches: M = 2, K = 1, lda = 2, incx = incy = 1. *)
Definition three_batch_arguments : @Arguments sample_externals :=
  @Build_Arguments sample_externals 2 2 1 2 2 2 1 1 3 "U" "N" 1 1 0 0.

(** ** The host vectors of a run *)

Section HostVocabulary.
Context `{Externals}.
Variables (argus : Arguments).

(** The three host matrices of testing_her2k as initialised after
    [srand(1)], each with the generator state it leaves. *)
Definition her2k_init_A : list T * rng_state :=
  fill_cells
    (hipblas_init_indices (N argus)
       (her2k_K1 (N argus) (K argus) (char2hipblas_operation (transA_option argus)))
       (lda argus))
    (replicate (Z.to_nat (her2k_A_size argus)) T_zero) (srand_state 1).

Definition her2k_init_B : list T * rng_state :=
  fill_cells
    (hipblas_init_indices (N argus)
       (her2k_K1 (N argus) (K argus) (char2hipblas_operation (transA_option argus)))
       (ldb argus))
    (replicate (Z.to_nat (her2k_B_size argus)) T_zero) her2k_init_A.2.

Definition her2k_init_C : list T * rng_state :=
  fill_cells (hipblas_init_indices (N argus) (N argus) (ldc argus))
    (replicate (Z.to_nat (her2k_C_size argus)) T_zero) her2k_init_B.2.

(** The output of the CPU reference routine on the initial matrices. *)
Definition her2k_reference : list T :=
  cblas_her2k_result (char2hipblas_fill (uplo_option argus))
    (char2hipblas_operation (transA_option argus)) (N argus) (K argus)
    (get_alpha_T (alpha argus)) her2k_init_A.1 (lda argus) her2k_init_B.1 (ldb argus)
    (get_beta_U (beta argus)) her2k_init_C.1 (ldc argus).

(** The three vectors of a batch of testing_sbmv_batched as initialised,
    and the output of the CPU reference routine on them. *)
Definition sbmv_initial_A : list T :=
  (sbmv_init_A (M argus) (lda argus) (sbmv_A_size argus)).1.

Definition sbmv_initial_x : list T :=
  (sbmv_init_x (M argus) (lda argus) (incx argus)
     (sbmv_A_size argus) (sbmv_X_size argus)).1.

Definition sbmv_initial_y : list T :=
  (sbmv_init_y (M argus) (lda argus) (incx argus) (incy argus)
     (sbmv_A_size argus) (sbmv_X_size argus) (sbmv_Y_size argus)).1.

Definition sbmv_reference : list T :=
  cblas_sbmv_result (char2hipblas_fill (uplo_option argus)) (M argus) (K argus)
    (get_alpha_T (alpha argus)) sbmv_initial_A (lda argus) sbmv_initial_x (incx argus)
    (get_beta_T (beta argus)) sbmv_initial_y (incy argus).

End HostVocabulary.

(** Arguments of testing_sbmv_batched with M = 0: K = 0, lda = 1,
    incx = incy = 1, batch_count = 2. *)
Definition zero_M_arguments : @Arguments sample_externals :=
  @Build_Arguments sample_externals 0 2 0 1 1 2 1 1 2 "U" "N" 1 1 0 1.

(** An environment in which every per-batch device buffer is null and the
    device arrays of pointers are not. *)
Definition null_batch_buffers_env : @env sample_externals :=
  @Build_env sample_externals 0
    (fun d => match d with
              | bA_array _ | bx_array _ | by_array _ => true
              | _ => false
              end)
    (fun _ _ => hipSuccess) (fun _ => []) HIPBLAS_STATUS_SUCCESS.

(** Arguments the sanity check of testing_her2k accepts whose product
    lda * K1 is not an [int]: N = 0, K = lda = ldb = 46341, ldc = 1,
    transA = N. *)
Definition overflow_arguments : @Arguments sample_externals :=
  @Build_Arguments sample_externals 2 0 46341 46341 46341 1 1 1 2 "U" "N" 1 1 0 1.

(** * Properties *)

(** ** Arithmetic *)

Lemma wrap_id (z : Z) : int_range z -> wrap z = z.
Proof.
  unfold int_range, int_min, int_max, wrap. intros Hz.
  rewrite Z.mod_small; lia.
Qed.

Lemma wrap_range (z : Z) : int_range (wrap z).
Proof.
  unfold int_range, int_min, int_max, wrap.
  pose proof (Z.mod_pos_bound (z + 2 ^ 31) (2 ^ 32)). lia.
Qed.

Lemma int_add_exact (a b : Z) : int_range (a + b) -> int_add a b = a + b.
Proof. apply wrap_id. Qed.

Lemma int_mul_exact (a b : Z) : int_range (a * b) -> int_mul a b = a * b.
Proof. apply wrap_id. Qed.

(** ** Counting events *)

Lemma count_app (p : event -> bool) (l1 l2 : list event) :
  count p (l1 ++ l2) = (count p l1 + count p l2)%nat.
Proof.
  induction l1 as [|ev l1 IH]; simpl; [reflexivity|].
  destruct (p ev); rewrite IH; reflexivity.
Qed.

Lemma count_none (p q : event -> bool) (l : list event) :
  (forall ev, q ev = true -> p ev = false) ->
  Forall (fun ev => q ev = true) l ->
  count p l = O.
Proof.
  intros Hpq Hl. induction Hl as [|ev l Hev _ IH]; simpl; [reflexivity|].
  rewrite (Hpq ev Hev). exact IH.
Qed.

Lemma run_shape_eq (s : outcome) (tr tr' : list event) :
  run_shape s tr' -> tr = tr' -> run_shape s tr.
Proof. intros Hs ->. exact Hs. Qed.

(** Equality of traces up to the bracketing of [++]. *)
Ltac trace_eq :=
  repeat first [rewrite <- app_assoc | rewrite <- app_comm_cons | progress (cbn [app])];
  reflexivity.

Ltac forall_events := repeat (apply Forall_cons; [reflexivity|]); apply Forall_nil.

(** Unfolds the monad and the straight-line external calls, so that a body
    without loops evaluates on a symbolic state. *)
Ltac unfold_prog :=
  cbv beta iota zeta delta
    [mbind prog_bind mret prog_ret return_ emit set_host get_host set_rng get_rng
     when fault host_vector device_vector hipblasCreate hipblasDestroy srand get_time_us
     hipblas_init hipMemcpy hipblas_gpu unit_check_general run initial_world
     trace rng host fst snd];
  cbn [app].

Section Her2kTrace.
Context `{Externals}.
Variables (e : env) (argus : Arguments).

(** An accepted input whose sizes are not negative runs the whole cycle;
    the trace is determined by the arguments and the status of the GPU
    routine. *)
Lemma her2k_accepted_run :
  her2k_accepted argus ->
  her2k_size_negative argus = false ->
  (testing_her2k e argus).1 = gpu_status e /\
  trace (testing_her2k e argus).2 =
    her2k_allocations argus ++ EvCreate :: her2k_setup argus ++ EvGpu (gpu_status e)
    :: (if bool_decide (gpu_status e <> HIPBLAS_STATUS_SUCCESS) then []
        else her2k_check argus) ++ [EvDestroy].
Proof.
  unfold her2k_accepted, her2k_size_negative, testing_her2k, testing_her2k_body, run.
  intros -> Hneg. apply orb_false_elim in Hneg. destruct Hneg as [HA HC].
  unfold her2k_allocations, her2k_setup, her2k_check,
    her2k_A_size, her2k_B_size, her2k_C_size in *.
  cbv zeta. unfold host_vector. rewrite HA, HC.
  destruct (truthy (timing argus)), (truthy (unit_check argus));
    unfold_prog; case_bool_decide as Hs; unfold_prog; split; try reflexivity.
  all: destruct (decide (gpu_status e = HIPBLAS_STATUS_SUCCESS)) as [->|];
    [reflexivity | contradiction].
Qed.

(** An accepted input with a negative size faults at the first host vector
    of that size, before any device allocation and before hipblasCreate. *)
Lemma her2k_fault_run :
  her2k_accepted argus ->
  her2k_size_negative argus = true ->
  testing_her2k e argus =
    (Faulted, {| trace := her2k_fault_events argus; rng := rng_initial e;
                 host := fun _ => [] |}).
Proof.
  unfold her2k_accepted, her2k_size_negative, testing_her2k, testing_her2k_body, run.
  intros -> Hneg.
  unfold her2k_fault_events, her2k_A_size, her2k_B_size, her2k_C_size in *.
  cbv zeta. unfold host_vector.
  destruct (int_mul (lda argus) _ <? 0) eqn:HA.
  - unfold_prog. reflexivity.
  - cbn [orb] in Hneg. rewrite Hneg. unfold_prog. reflexivity.
Qed.

Lemma her2k_size_negative_false :
  0 <= her2k_A_size argus -> 0 <= her2k_C_size argus ->
  her2k_size_negative argus = false.
Proof.
  intros HA HC. unfold her2k_size_negative.
  apply Z.ltb_ge in HA, HC. rewrite HA, HC. reflexivity.
Qed.
End Her2kTrace.

(** ** Loops *)

(** The three tests of [sizes_negative], one by one. *)
Lemma sizes_negative_false (A_size X_size Y_size : Z) :
  sizes_negative A_size X_size Y_size = false ->
  (A_size <? 0) = false /\ (X_size <? 0) = false /\ (Y_size <? 0) = false.
Proof.
  unfold sizes_negative. intros Hneg.
  apply orb_false_elim in Hneg. destruct Hneg as [Hneg HY].
  apply orb_false_elim in Hneg. destruct Hneg as [HA HX]. auto.
Qed.

Lemma sizes_negative_nonneg (A_size X_size Y_size : Z) :
  0 <= A_size -> 0 <= X_size -> 0 <= Y_size ->
  sizes_negative A_size X_size Y_size = false.
Proof.
  intros HA HX HY. unfold sizes_negative.
  apply Z.ltb_ge in HA, HX, HY. rewrite HA, HX, HY. reflexivity.
Qed.

Section Loops.
Context `{Externals}.

Lemma for_each_emit (f : nat -> event) (bs : list nat) (w : world) :
  for_each bs (fun b => emit (f b)) w =
  (Next tt, {| trace := trace w ++ map f bs; rng := rng w; host := host w |}).
Proof.
  revert w. induction bs as [|b bs IH]; intros w; simpl.
  - rewrite app_nil_r. destruct w; reflexivity.
  - unfold mbind, prog_bind. unfold emit at 1. rewrite IH. simpl.
    rewrite <- app_assoc. reflexivity.
Qed.

Lemma device_batch_vector_run (d : nat -> dbuf) (n size : Z) (w : world) :
  device_batch_vector d n size w =
  (Next tt, {| trace := trace w ++ map (fun b => EvDeviceAlloc (d b) size)
                                     (seq 0 (Z.to_nat n));
               rng := rng w; host := host w |}).
Proof. apply for_each_emit. Qed.

(** A loop whose body never returns early and appends one event per
    index. *)
Lemma for_each_one_event (body : nat -> prog unit) (f : nat -> event)
    (bs : list nat) (w : world) :
  (forall b w0, exists w1, body b w0 = (Next tt, w1) /\
                           trace w1 = trace w0 ++ [f b] /\ rng w1 = rng w0) ->
  exists w', for_each bs body w = (Next tt, w') /\
             trace w' = trace w ++ map f bs /\ rng w' = rng w.
Proof.
  intros Hbody. revert w. induction bs as [|b bs IH]; intros w; simpl.
  - exists w. rewrite app_nil_r. auto.
  - destruct (Hbody b w) as (w1 & E1 & T1 & R1).
    destruct (IH w1) as (w' & E' & T' & R').
    exists w'. unfold mbind, prog_bind. rewrite E1, E', T', T1, R', R1.
    rewrite <- app_assoc. auto.
Qed.

Lemma for_each_setup_step (body : nat -> prog unit) (bs : list nat) (w : world) :
  (forall b w0, setup_step (body b w0) w0) ->
  setup_step (for_each bs body w) w.
Proof.
  intros Hbody. revert w. induction bs as [|b bs IH]; intros w; simpl.
  - exists []. split; [constructor|]. simpl. symmetry; apply app_nil_r.
  - unfold mbind, prog_bind.
    destruct (Hbody b w) as (seg1 & F1 & S1).
    destruct (body b w) as [[[]|s|] w1].
    + destruct (IH w1) as (seg2 & F2 & S2).
      exists (seg1 ++ seg2). split; [apply Forall_app; auto|].
      destruct (for_each bs body w1) as [[[]|s2|] w2].
      * rewrite S2, S1, <- app_assoc. reflexivity.
      * destruct S2 as [-> S2]. split; [reflexivity|].
        rewrite S2, S1, <- !app_assoc. reflexivity.
      * rewrite S2, S1, <- app_assoc. reflexivity.
    + exists seg1. split; [exact F1|]. exact S1.
    + exists seg1. split; [exact F1|]. exact S1.
Qed.

(** A loop that leaves at the first index whose pass fails. *)
Lemma for_each_exact (body : nat -> prog unit) (failed : nat -> bool)
    (events : nat -> list event) (s : hipblasStatus_t) (bs : list nat) (w : world) :
  (forall b w0, exists w1,
      body b w0 = (if failed b then Return s else Next tt, w1) /\
      trace w1 = trace w0 ++ events b ++ (if failed b then [EvDestroy] else [])) ->
  exists w',
    for_each bs body w = (if existsb failed bs then Return s else Next tt, w') /\
    trace w' = trace w ++ flat_map events (passes_run failed bs)
               ++ (if existsb failed bs then [EvDestroy] else []).
Proof.
  intros Hbody. revert w. induction bs as [|b bs IH]; intros w; cbn [for_each].
  - exists w. split; [reflexivity|]. cbn. rewrite app_nil_r. reflexivity.
  - unfold mbind, prog_bind. destruct (Hbody b w) as (w1 & E1 & T1).
    rewrite E1. cbn [existsb passes_run flat_map]. destruct (failed b); cbn [orb].
    + exists w1. split; [reflexivity|]. rewrite T1. cbn [flat_map].
      rewrite app_nil_r. reflexivity.
    + destruct (IH w1) as (w' & E' & T'). exists w'. split; [exact E'|].
      rewrite T', T1. rewrite app_nil_r, <- !app_assoc. reflexivity.
Qed.

Lemma for_each_result (body : nat -> prog unit) (failed : nat -> bool)
    (s : hipblasStatus_t) (bs : list nat) (w : world) :
  (forall b w0, (body b w0).1 = if failed b then Return s else Next tt) ->
  (for_each bs body w).1 = if existsb failed bs then Return s else Next tt.
Proof.
  intros Hbody. revert w. induction bs as [|b bs IH]; intros w; simpl; [reflexivity|].
  unfold mbind, prog_bind. specialize (Hbody b w).
  destruct (body b w) as [[[]|s0|] w1]; simpl in Hbody;
    destruct (failed b); try discriminate; simpl.
  - apply IH.
  - exact Hbody.
Qed.

Lemma sbmv_init_batch_setup_step (e : env) (M lda incx incy A_size X_size Y_size : Z)
    (b : nat) (w : world) :
  setup_step (sbmv_init_batch e M lda incx incy A_size X_size Y_size b w) w.
Proof.
  unfold sbmv_init_batch, setup_step, host_vector.
  destruct (A_size <? 0).
  { unfold_prog. exists [EvHostAlloc (hA_array b) A_size].
    split; [forall_events|reflexivity]. }
  destruct (X_size <? 0).
  { unfold_prog.
    exists [EvHostAlloc (hA_array b) A_size; EvHostAlloc (hx_array b) X_size].
    split; [forall_events|trace_eq]. }
  destruct (Y_size <? 0).
  { unfold_prog.
    exists [EvHostAlloc (hA_array b) A_size; EvHostAlloc (hx_array b) X_size;
            EvHostAlloc (hy_array b) Y_size].
    split; [forall_events|trace_eq]. }
  unfold_prog.
  exists (sbmv_batch_setup M lda incx incy A_size X_size Y_size b).
  split; [unfold sbmv_batch_setup; forall_events|].
  match goal with |- context [if ?c then _ else _] => destruct c end;
    unfold_prog; unfold sbmv_batch_setup; rewrite <- ?app_assoc; auto.
Qed.

Lemma sbmv_init_loop_setup_step (e : env) (M lda incx incy A_size X_size Y_size n : Z)
    (w : world) :
  setup_step (sbmv_init_loop e M lda incx incy A_size X_size Y_size n w) w.
Proof.
  apply for_each_setup_step. intros b w0. apply sbmv_init_batch_setup_step.
Qed.

(** With a negative size a pass faults at its first host vector of that
    size. *)
Lemma sbmv_init_batch_fault (e : env) (M lda incx incy A_size X_size Y_size : Z)
    (b : nat) (w : world) :
  sizes_negative A_size X_size Y_size = true ->
  sbmv_init_batch e M lda incx incy A_size X_size Y_size b w =
  (Fault, {| trace := trace w ++ sbmv_fault_events A_size X_size Y_size b;
             rng := rng w; host := fun _ => [] |}).
Proof.
  unfold sizes_negative, sbmv_init_batch, sbmv_fault_events, host_vector. intros Hneg.
  destruct (A_size <? 0); [unfold_prog; reflexivity|].
  destruct (X_size <? 0); [unfold_prog; rewrite <- app_assoc; reflexivity|].
  cbn [orb] in Hneg. rewrite Hneg. unfold_prog. rewrite <- !app_assoc. reflexivity.
Qed.

(** So does the loop, in its first pass. *)
Lemma sbmv_init_loop_fault (e : env) (M lda incx incy A_size X_size Y_size n : Z)
    (w : world) :
  sizes_negative A_size X_size Y_size = true ->
  0 < n ->
  sbmv_init_loop e M lda incx incy A_size X_size Y_size n w =
  (Fault, {| trace := trace w ++ sbmv_fault_events A_size X_size Y_size 0;
             rng := rng w; host := fun _ => [] |}).
Proof.
  intros Hneg Hn. unfold sbmv_init_loop.
  destruct (Z.to_nat n) as [|k] eqn:Hk; [lia|].
  cbn [seq for_each]. unfold mbind, prog_bind.
  rewrite (sbmv_init_batch_fault e M lda incx incy A_size X_size Y_size 0 w Hneg).
  reflexivity.
Qed.

(** Without a negative size a pass runs to the test of its three copies. *)
Lemma sbmv_init_batch_exact (e : env) (M lda incx incy A_size X_size Y_size : Z)
    (b : nat) (w : world) :
  sizes_negative A_size X_size Y_size = false ->
  exists w1,
    sbmv_init_batch e M lda incx incy A_size X_size Y_size b w =
      (if sbmv_batch_copy_failed e b
       then Return HIPBLAS_STATUS_MAPPING_ERROR else Next tt, w1) /\
    trace w1 = trace w ++ sbmv_batch_setup M lda incx incy A_size X_size Y_size b
               ++ (if sbmv_batch_copy_failed e b then [EvDestroy] else []).
Proof.
  intros Hneg. destruct (sizes_negative_false _ _ _ Hneg) as (HA & HX & HY).
  unfold sbmv_init_batch, sbmv_batch_copy_failed, sbmv_batch_setup, host_vector.
  rewrite HA, HX, HY. unfold_prog.
  match goal with |- context [if ?c then _ else _] => destruct c end; unfold_prog;
    eexists; (split; [reflexivity|]); cbn [trace]; trace_eq.
Qed.

Lemma sbmv_init_loop_exact (e : env) (M lda incx incy A_size X_size Y_size n : Z)
    (w : world) :
  sizes_negative A_size X_size Y_size = false ->
  exists w',
    sbmv_init_loop e M lda incx incy A_size X_size Y_size n w =
      (if existsb (sbmv_batch_copy_failed e) (seq 0 (Z.to_nat n))
       then Return HIPBLAS_STATUS_MAPPING_ERROR else Next tt, w') /\
    trace w' = trace w
               ++ flat_map (sbmv_batch_setup M lda incx incy A_size X_size Y_size)
                    (passes_run (sbmv_batch_copy_failed e) (seq 0 (Z.to_nat n)))
               ++ (if existsb (sbmv_batch_copy_failed e) (seq 0 (Z.to_nat n))
                   then [EvDestroy] else []).
Proof.
  intros Hneg. apply for_each_exact. intros b w0. apply sbmv_init_batch_exact, Hneg.
Qed.

Lemma sbmv_init_batch_result (e : env) (M lda incx incy A_size X_size Y_size : Z)
    (b : nat) (w : world) :
  sizes_negative A_size X_size Y_size = false ->
  (sbmv_init_batch e M lda incx incy A_size X_size Y_size b w).1 =
  if sbmv_batch_copy_failed e b then Return HIPBLAS_STATUS_MAPPING_ERROR else Next tt.
Proof.
  intros Hneg.
  destruct (sbmv_init_batch_exact e M lda incx incy A_size X_size Y_size b w Hneg)
    as (w1 & -> & _).
  reflexivity.
Qed.

Lemma sbmv_copy_back_run (e : env) (Y_size n : Z) (w : world) :
  exists w', sbmv_copy_back e Y_size n w = (Next tt, w') /\
    trace w' = trace w ++
      map (fun b => EvMemcpy (Host (hres_array b)) (Device (by_array b))
                      (size_mul sizeof_T Y_size) hipMemcpyDeviceToHost)
          (seq 0 (Z.to_nat n)) /\
    rng w' = rng w.
Proof.
  apply for_each_one_event. intros b w0. unfold_prog.
  eexists. split; [reflexivity|]. split; reflexivity.
Qed.

Lemma sbmv_cblas_loop_run (uplo : hipblasFillMode_t) (M K : Z) (alpha : T)
    (lda incx : Z) (beta : T) (incy n : Z) (w : world) :
  exists w', sbmv_cblas_loop uplo M K alpha lda incx beta incy n w = (Next tt, w') /\
    trace w' = trace w ++ map (fun _ => EvCblas) (seq 0 (Z.to_nat n)) /\
    rng w' = rng w.
Proof.
  apply (for_each_one_event _ (fun _ => EvCblas)). intros b w0. unfold_prog.
  eexists. split; [reflexivity|]. split; reflexivity.
Qed.
End Loops.

(** ** The shape of the runs *)

Section Shapes.
Context `{Externals}.
Variables (e : env) (argus : Arguments).

Lemma her2k_invalid_run :
  her2k_invalid (N argus) (K argus) (lda argus) (ldb argus) (ldc argus)
    (char2hipblas_operation (transA_option argus)) = true ->
  testing_her2k e argus = (Returned HIPBLAS_STATUS_INVALID_VALUE, initial_world e).
Proof.
  unfold testing_her2k, testing_her2k_body, run. intros ->. reflexivity.
Qed.

Lemma her2k_run_shape :
  run_shape (testing_her2k e argus).1 (trace (testing_her2k e argus).2).
Proof.
  destruct (her2k_invalid (N argus) (K argus) (lda argus) (ldb argus) (ldc argus)
              (char2hipblas_operation (transA_option argus))) eqn:Hgate.
  { rewrite (her2k_invalid_run Hgate). apply shape_quick_return. auto. }
  destruct (her2k_size_negative argus) eqn:Hneg.
  { rewrite (her2k_fault_run e argus Hgate Hneg). apply shape_faulted_before.
    cbn [snd trace]. unfold her2k_fault_events.
    destruct (her2k_A_size argus <? 0); forall_events. }
  destruct (her2k_accepted_run e argus Hgate Hneg) as [-> ->].
  case_bool_decide as Hs.
  - apply shape_gpu_failed; [| |exact Hs].
    + unfold her2k_allocations. forall_events.
    + unfold her2k_setup. destruct (truthy (timing argus)); forall_events.
  - destruct (decide (gpu_status e = HIPBLAS_STATUS_SUCCESS)) as [->|]; [|contradiction].
    apply shape_completed.
    + unfold her2k_allocations. forall_events.
    + unfold her2k_setup. destruct (truthy (timing argus)); forall_events.
    + unfold her2k_check. destruct (truthy (unit_check argus)); forall_events.
Qed.

Lemma sbmv_invalid_run :
  sbmv_batched_invalid (M argus) (K argus) (lda argus) (incx argus) (incy argus)
    (batch_count argus) = true ->
  testing_sbmv_batched e argus = (Returned HIPBLAS_STATUS_INVALID_VALUE, initial_world e).
Proof.
  unfold testing_sbmv_batched, testing_sbmv_batched_body, run. intros ->. reflexivity.
Qed.

Lemma sbmv_zero_batch_run :
  sbmv_batched_invalid (M argus) (K argus) (lda argus) (incx argus) (incy argus)
    (batch_count argus) = false ->
  batch_count argus = 0 ->
  testing_sbmv_batched e argus = (Returned HIPBLAS_STATUS_SUCCESS, initial_world e).
Proof.
  unfold testing_sbmv_batched, testing_sbmv_batched_body, run. intros -> ->. reflexivity.
Qed.

(** Past the sanity check and the test of batch_count, the loops run at
    least once. *)
Lemma sbmv_batch_count_positive :
  sbmv_batched_invalid (M argus) (K argus) (lda argus) (incx argus) (incy argus)
    (batch_count argus) = false ->
  (batch_count argus =? 0) = false ->
  0 < batch_count argus.
Proof.
  unfold sbmv_batched_invalid. intros Hgate Hnz.
  apply orb_false_elim in Hgate. destruct Hgate as [_ Hb].
  apply Z.ltb_ge in Hb. apply Z.eqb_neq in Hnz. lia.
Qed.

Lemma sbmv_device_allocations_setup :
  Forall (fun ev => is_setup ev = true) (sbmv_device_allocations argus).
Proof.
  unfold sbmv_device_allocations.
  repeat (apply Forall_app; split); try forall_events;
    apply List.Forall_map, List.Forall_forall; intros b _; reflexivity.
Qed.

Ltac sbmv_trace_eq :=
  unfold sbmv_device_allocations, sbmv_pointer_copies, sbmv_copy_back_events,
    sbmv_A_size, sbmv_X_size, sbmv_Y_size;
  trace_eq.

Lemma sbmv_run_shape :
  run_shape (testing_sbmv_batched e argus).1 (trace (testing_sbmv_batched e argus).2).
Proof.
  destruct (sbmv_batched_invalid (M argus) (K argus) (lda argus) (incx argus)
              (incy argus) (batch_count argus)) eqn:Hgate.
  { rewrite (sbmv_invalid_run Hgate). apply shape_quick_return. auto. }
  destruct (Z.eq_dec (batch_count argus) 0) as [Hz|Hnz].
  { rewrite (sbmv_zero_batch_run Hgate Hz). apply shape_quick_return. auto. }
  unfold testing_sbmv_batched, testing_sbmv_batched_body.
  rewrite Hgate. apply Z.eqb_neq in Hnz. rewrite Hnz.
  unfold_prog. rewrite !device_batch_vector_run. unfold_prog.
  pose proof sbmv_device_allocations_setup as Fdev.
  assert (Fptr : Forall (fun ev => is_setup ev = true) (sbmv_pointer_copies argus))
    by (unfold sbmv_pointer_copies; forall_events).
  destruct (sbmv_alloc_failed _ _ _ _ _); unfold_prog.
  { eapply run_shape_eq;
      [apply (shape_setup_failed _ [] _ (Forall_nil _) Fdev); auto | sbmv_trace_eq]. }
  match goal with
  | |- context [sbmv_init_loop ?e0 ?a ?b ?c ?d ?f ?g ?h ?n ?w] =>
      pose proof (sbmv_init_loop_setup_step e0 a b c d f g h n w) as (seg & Fseg & Hseg);
      destruct (sbmv_init_loop e0 a b c d f g h n w) as [[[]|s|] w1]
  end; unfold_prog; cbv beta iota delta [trace] in Hseg.
  2:{ destruct Hseg as [-> Hseg]. rewrite Hseg.
      eapply run_shape_eq;
        [apply (shape_setup_failed _ [] (sbmv_device_allocations argus ++ EvSrand 1 :: seg)
                  (Forall_nil _));
         [apply Forall_app; split; [exact Fdev|constructor; [reflexivity|exact Fseg]]
         | auto]
        | sbmv_trace_eq ]. }
  2:{ rewrite Hseg.
      eapply run_shape_eq;
        [apply (shape_faulted_after [] (sbmv_device_allocations argus ++ EvSrand 1 :: seg)
                  (Forall_nil _));
         apply Forall_app; split; [exact Fdev|constructor; [reflexivity|exact Fseg]]
        | sbmv_trace_eq ]. }
  assert (Fsetup : Forall (fun ev => is_setup ev = true)
            (sbmv_device_allocations argus ++ EvSrand 1 :: seg
             ++ sbmv_pointer_copies argus)).
  { apply Forall_app; split; [exact Fdev|].
    constructor; [reflexivity|]. apply Forall_app; split; assumption. }
  match goal with |- context [if ?c then _ else _] => destruct c end; unfold_prog.
  { rewrite Hseg.
    eapply run_shape_eq;
      [apply (shape_setup_failed _ [] _ (Forall_nil _) Fsetup); auto | sbmv_trace_eq]. }
  case_bool_decide as Hs; unfold_prog.
  { rewrite Hseg.
    eapply run_shape_eq;
      [apply (shape_gpu_failed _ [] _ (Forall_nil _) Fsetup Hs) | sbmv_trace_eq]. }
  destruct (decide (gpu_status e = HIPBLAS_STATUS_SUCCESS)) as [Hg|]; [|contradiction].
  rewrite Hg.
  match goal with
  | |- context [sbmv_copy_back ?e0 ?y ?n ?w] =>
      destruct (sbmv_copy_back_run e0 y n w) as (w2 & E2 & T2 & _); rewrite E2
  end; unfold_prog; cbv beta iota delta [trace] in T2.
  assert (Fcheck : Forall (fun ev => is_check ev = true) (sbmv_check argus)).
  { unfold sbmv_check, sbmv_copy_back_events.
    destruct (truthy (unit_check argus));
      repeat (apply Forall_app; split); try forall_events;
      apply List.Forall_map, List.Forall_forall; intros b _; reflexivity. }
  unfold sbmv_check in Fcheck.
  destruct (truthy (unit_check argus)); unfold_prog.
  - match goal with
    | |- context [sbmv_cblas_loop ?u ?m ?k ?al ?ld ?ix ?be ?iy ?n ?w] =>
        destruct (sbmv_cblas_loop_run u m k al ld ix be iy n w) as (w3 & E3 & T3 & _);
        rewrite E3
    end; unfold_prog; cbv beta iota delta [trace] in T3.
    rewrite T3, T2, Hseg.
    eapply run_shape_eq;
      [apply (shape_completed [] _ _ (Forall_nil _) Fsetup Fcheck) | sbmv_trace_eq].
  - rewrite T2, Hseg.
    eapply run_shape_eq;
      [apply (shape_completed [] _ _ (Forall_nil _) Fsetup Fcheck) | sbmv_trace_eq].
Qed.
End Shapes.

(** ** What the shape of a run says about the handle and the GPU call *)

Section ShapeFacts.

Lemma setup_not_handle (ev : event) :
  is_setup ev = true ->
  is_create ev = false /\ is_destroy ev = false /\ is_gpu ev = false /\
  is_d2h ev = false /\ is_cblas ev = false /\ is_unit_check ev = false.
Proof.
  destruct ev as [| | | | | | ? ? ? []| | | |]; simpl; intros Hev;
    try discriminate; repeat split.
Qed.

Lemma check_not_handle (ev : event) :
  is_check ev = true ->
  is_create ev = false /\ is_destroy ev = false /\ is_gpu ev = false.
Proof.
  destruct ev as [| | | | | | ? ? ? []| | | |]; simpl; intros Hev;
    try discriminate; repeat split.
Qed.

Lemma count_setup (p : event -> bool) (l : list event) :
  (forall ev, is_setup ev = true -> p ev = false) ->
  Forall (fun ev => is_setup ev = true) l -> count p l = O.
Proof. apply count_none. Qed.

Lemma count_check (p : event -> bool) (l : list event) :
  (forall ev, is_check ev = true -> p ev = false) ->
  Forall (fun ev => is_check ev = true) l -> count p l = O.
Proof. apply count_none. Qed.

Lemma setup_no_gpu (l : list event) (st : hipblasStatus_t) :
  Forall (fun ev => is_setup ev = true) l -> EvGpu st ∉ l.
Proof.
  intros Hl Hin. apply list_elem_of_In in Hin.
  rewrite List.Forall_forall in Hl. specialize (Hl _ Hin). discriminate.
Qed.

Lemma check_no_gpu (l : list event) (st : hipblasStatus_t) :
  Forall (fun ev => is_check ev = true) l -> EvGpu st ∉ l.
Proof.
  intros Hl Hin. apply list_elem_of_In in Hin.
  rewrite List.Forall_forall in Hl. specialize (Hl _ Hin). discriminate.
Qed.

Lemma setup_no_create (l : list event) :
  Forall (fun ev => is_setup ev = true) l -> EvCreate ∉ l.
Proof.
  intros Hl Hin. apply list_elem_of_In in Hin.
  rewrite List.Forall_forall in Hl. specialize (Hl _ Hin). discriminate.
Qed.

Ltac count_phases :=
  repeat first
    [ rewrite count_app
    | progress (cbn [count is_create is_destroy is_gpu is_d2h is_cblas is_unit_check])
    | rewrite (count_setup _ _ (fun ev Hev => proj1 (setup_not_handle ev Hev)))
        by assumption
    | rewrite (count_setup _ _
                 (fun ev Hev => proj1 (proj2 (setup_not_handle ev Hev)))) by assumption
    | rewrite (count_setup _ _
                 (fun ev Hev => proj1 (proj2 (proj2 (setup_not_handle ev Hev)))))
        by assumption
    | rewrite (count_setup _ _
                 (fun ev Hev => proj1 (proj2 (proj2 (proj2 (setup_not_handle ev Hev))))))
        by assumption
    | rewrite (count_setup _ _
                 (fun ev Hev =>
                    proj1 (proj2 (proj2 (proj2 (proj2 (setup_not_handle ev Hev)))))))
        by assumption
    | rewrite (count_setup _ _
                 (fun ev Hev =>
                    proj2 (proj2 (proj2 (proj2 (proj2 (setup_not_handle ev Hev)))))))
        by assumption
    | rewrite (count_check _ _ (fun ev Hev => proj1 (check_not_handle ev Hev)))
        by assumption
    | rewrite (count_check _ _ (fun ev Hev => proj1 (proj2 (check_not_handle ev Hev))))
        by assumption
    | rewrite (count_check _ _ (fun ev Hev => proj2 (proj2 (check_not_handle ev Hev))))
        by assumption ].

(** A run that created the handle and returned a status destroyed the
    handle once, as its last call. *)
Lemma run_shape_handle (o : outcome) (s : hipblasStatus_t) (tr : list event) :
  run_shape o tr -> o = Returned s -> EvCreate ∈ tr ->
  count is_create tr = 1%nat /\ count is_destroy tr = 1%nat /\
  exists tr', tr = tr' ++ [EvDestroy].
Proof.
  intros Hs Ho Hin.
  destruct Hs as [s0 _|s0 pre seg Fp Fs _|s0 pre seg Fp Fs _|pre seg post Fp Fs Fc
                 |pre Fp|pre seg Fp Fs]; try discriminate Ho.
  - inversion Hin.
  - split; [|split]; [count_phases; reflexivity ..|].
    exists (pre ++ EvCreate :: seg). trace_eq.
  - split; [|split]; [count_phases; reflexivity ..|].
    exists (pre ++ EvCreate :: seg ++ [EvGpu s0]). trace_eq.
  - split; [|split]; [count_phases; reflexivity ..|].
    exists (pre ++ EvCreate :: seg ++ EvGpu HIPBLAS_STATUS_SUCCESS :: post).
    trace_eq.
Qed.

(** A run in which the GPU routine reported a failure. *)
Lemma run_shape_gpu_failure (o : outcome) (st : hipblasStatus_t) (tr : list event) :
  run_shape o tr -> EvGpu st ∈ tr -> st <> HIPBLAS_STATUS_SUCCESS ->
  o = st /\
  (exists tr', tr = tr' ++ [EvGpu st; EvDestroy] /\
               count is_gpu tr' = O /\ count is_destroy tr' = O) /\
  count is_gpu tr = 1%nat /\ count is_destroy tr = 1%nat /\
  count is_d2h tr = O /\ count is_cblas tr = O /\ count is_unit_check tr = O.
Proof.
  intros Hs Hin Hst.
  destruct Hs as [s _|s pre seg Fp Fs _|s pre seg Fp Fs _|pre seg post Fp Fs Fc
                 |pre Fp|pre seg Fp Fs].
  - inversion Hin.
  - exfalso. rewrite elem_of_app, elem_of_cons, elem_of_app, list_elem_of_singleton in Hin.
    destruct Hin as [Hin|[Hin|[Hin|Hin]]]; try discriminate;
      [exact (setup_no_gpu _ _ Fp Hin) | exact (setup_no_gpu _ _ Fs Hin)].
  - assert (s = st) as ->.
    { rewrite elem_of_app, elem_of_cons, elem_of_app, !elem_of_cons in Hin.
      destruct Hin as [Hin|[Hin|[Hin|[Hin|[Hin|Hin]]]]]; try discriminate.
      - destruct (setup_no_gpu _ _ Fp Hin).
      - destruct (setup_no_gpu _ _ Fs Hin).
      - congruence.
      - inversion Hin. }
    split; [reflexivity|]. split.
    + exists (pre ++ EvCreate :: seg). split; [trace_eq|].
      split; count_phases; reflexivity.
    + repeat split; count_phases; reflexivity.
  - exfalso.
    rewrite elem_of_app, elem_of_cons, elem_of_app, elem_of_cons, elem_of_app,
      list_elem_of_singleton in Hin.
    destruct Hin as [Hin|[Hin|[Hin|[Hin|[Hin|Hin]]]]]; try discriminate.
    + exact (setup_no_gpu _ _ Fp Hin).
    + exact (setup_no_gpu _ _ Fs Hin).
    + congruence.
    + exact (check_no_gpu _ _ Fc Hin).
  - destruct (setup_no_gpu _ _ Fp Hin).
  - exfalso. rewrite elem_of_app, elem_of_cons in Hin.
    destruct Hin as [Hin|[Hin|Hin]]; try discriminate;
      [exact (setup_no_gpu _ _ Fp Hin) | exact (setup_no_gpu _ _ Fs Hin)].
Qed.
End ShapeFacts.

(** ** The outcome and the trace of testing_sbmv_batched *)

Section SbmvStatus.
Context `{Externals}.
Variables (e : env).

Lemma sbmv_init_loop_result (M lda incx incy A_size X_size Y_size n : Z) (w : world) :
  sizes_negative A_size X_size Y_size = false ->
  (sbmv_init_loop e M lda incx incy A_size X_size Y_size n w).1 =
  if existsb (sbmv_batch_copy_failed e) (seq 0 (Z.to_nat n))
  then Return HIPBLAS_STATUS_MAPPING_ERROR else Next tt.
Proof.
  intros Hneg. apply for_each_result. intros b w0. apply sbmv_init_batch_result, Hneg.
Qed.

Lemma sbmv_outcome_eq (argus : Arguments) :
  (testing_sbmv_batched e argus).1 = sbmv_outcome e argus.
Proof.
  unfold sbmv_outcome, sbmv_status, sbmv_size_negative, testing_sbmv_batched,
    testing_sbmv_batched_body, sbmv_A_size, sbmv_X_size, sbmv_Y_size,
    sbmv_pointer_copy_failed.
  destruct (sbmv_batched_invalid _ _ _ _ _ _) eqn:Hgate; [reflexivity|].
  destruct (batch_count argus =? 0) eqn:Hnz; [reflexivity|].
  pose proof (sbmv_batch_count_positive argus Hgate Hnz) as Hpos.
  unfold_prog. rewrite !device_batch_vector_run. unfold_prog.
  destruct (sbmv_alloc_failed _ _ _ _ _); unfold_prog; [reflexivity|].
  destruct (sizes_negative _ _ _) eqn:Hneg.
  { rewrite (sbmv_init_loop_fault _ _ _ _ _ _ _ _ _ _ Hneg Hpos). reflexivity. }
  match goal with
  | |- context [sbmv_init_loop ?e0 ?a ?b ?c ?d ?f ?g ?h ?n ?w] =>
      pose proof (sbmv_init_loop_result a b c d f g h n w Hneg) as Hloop;
      destruct (sbmv_init_loop e0 a b c d f g h n w) as [[[]|s|] w1]
  end; cbn [fst] in Hloop; unfold_prog;
    destruct (existsb _ _); try discriminate; [|congruence].
  match goal with |- context [if ?c then _ else _] => destruct c end; unfold_prog;
    [reflexivity|].
  case_bool_decide as Hs; unfold_prog; [reflexivity|].
  match goal with
  | |- context [sbmv_copy_back ?e0 ?y ?n ?w] =>
      destruct (sbmv_copy_back_run e0 y n w) as (w2 & E2 & _); rewrite E2
  end; unfold_prog.
  destruct (decide (gpu_status e = HIPBLAS_STATUS_SUCCESS)) as [->|]; [|contradiction].
  destruct (truthy (unit_check argus)); unfold_prog; [|reflexivity].
  match goal with
  | |- context [sbmv_cblas_loop ?u ?m ?k ?al ?ld ?ix ?be ?iy ?n ?w] =>
      destruct (sbmv_cblas_loop_run u m k al ld ix be iy n w) as (w3 & E3 & _);
      rewrite E3
  end; unfold_prog. reflexivity.
Qed.

(** Without a negative size the run returns [sbmv_status]. *)
Lemma sbmv_status_eq (argus : Arguments) :
  sbmv_size_negative argus = false ->
  (testing_sbmv_batched e argus).1 = Returned (sbmv_status e argus).
Proof.
  intros Hneg. rewrite sbmv_outcome_eq. unfold sbmv_outcome, sbmv_status.
  rewrite Hneg.
  destruct (sbmv_batched_invalid _ _ _ _ _ _); [reflexivity|].
  destruct (batch_count argus =? 0); [reflexivity|].
  destruct (sbmv_alloc_failed _ _ _ _ _); reflexivity.
Qed.

Lemma sbmv_trace_exact (argus : Arguments) :
  trace (testing_sbmv_batched e argus).2 = sbmv_trace e argus.
Proof.
  unfold sbmv_trace, sbmv_size_negative, testing_sbmv_batched, testing_sbmv_batched_body,
    sbmv_init_events, sbmv_device_allocations, sbmv_pointer_copies, sbmv_check,
    sbmv_copy_back_events, sbmv_pointer_copy_failed,
    sbmv_A_size, sbmv_X_size, sbmv_Y_size.
  destruct (sbmv_batched_invalid _ _ _ _ _ _) eqn:Hgate; [reflexivity|].
  destruct (batch_count argus =? 0) eqn:Hnz; [reflexivity|].
  pose proof (sbmv_batch_count_positive argus Hgate Hnz) as Hpos.
  unfold_prog. rewrite !device_batch_vector_run. unfold_prog.
  destruct (sbmv_alloc_failed _ _ _ _ _); unfold_prog; [trace_eq|].
  destruct (sizes_negative _ _ _) eqn:Hneg.
  { rewrite (sbmv_init_loop_fault _ _ _ _ _ _ _ _ _ _ Hneg Hpos). unfold_prog.
    trace_eq. }
  match goal with
  | |- context [sbmv_init_loop ?e0 ?a ?b ?c ?d ?f ?g ?h ?n ?w] =>
      destruct (sbmv_init_loop_exact e0 a b c d f g h n w Hneg) as (w1 & E1 & T1);
      rewrite E1
  end; cbv beta iota delta [trace] in T1.
  destruct (existsb _ _); unfold_prog; [rewrite T1; trace_eq|].
  match goal with |- context [if ?c then _ else _] => destruct c end; unfold_prog;
    [rewrite T1; trace_eq|].
  case_bool_decide as Hs; unfold_prog; [rewrite T1; trace_eq|].
  match goal with
  | |- context [sbmv_copy_back ?e0 ?y ?n ?w] =>
      destruct (sbmv_copy_back_run e0 y n w) as (w2 & E2 & T2 & _); rewrite E2
  end; unfold_prog; cbv beta iota delta [trace] in T2.
  destruct (truthy (unit_check argus)); unfold_prog.
  - match goal with
    | |- context [sbmv_cblas_loop ?u ?m ?k ?al ?ld ?ix ?be ?iy ?n ?w] =>
        destruct (sbmv_cblas_loop_run u m k al ld ix be iy n w) as (w3 & E3 & T3 & _);
        rewrite E3
    end; unfold_prog; cbv beta iota delta [trace] in T3.
    rewrite T3, T2, T1. trace_eq.
  - rewrite T2, T1. trace_eq.
Qed.
End SbmvStatus.

(** The outcome of testing_her2k does not depend on what hipMemcpy
    answered. *)
Lemma her2k_outcome_eq `{Externals} (e : env) (argus : Arguments) :
  (testing_her2k e argus).1 = her2k_outcome e argus.
Proof.
  unfold her2k_outcome.
  destruct (her2k_invalid _ _ _ _ _ _) eqn:Hgate.
  - rewrite (her2k_invalid_run e argus Hgate). reflexivity.
  - destruct (her2k_size_negative argus) eqn:Hneg.
    + rewrite (her2k_fault_run e argus Hgate Hneg). reflexivity.
    + apply (her2k_accepted_run e argus Hgate Hneg).
Qed.

(** In testing_sbmv_batched a failing host-to-device copy that is reached
    ends the run with the mapping-error status. *)
Lemma sbmv_host_to_device_failure `{Externals} (e : env) (argus : Arguments) :
  sbmv_batched_invalid (M argus) (K argus) (lda argus) (incx argus) (incy argus)
    (batch_count argus) = false ->
  batch_count argus <> 0 ->
  sbmv_alloc_failed e (Z.to_nat (int_sub (batch_count argus) 1))
    (sbmv_A_size argus) (sbmv_X_size argus) (sbmv_Y_size argus) = false ->
  sbmv_size_negative argus = false ->
  (exists b, (b < Z.to_nat (batch_count argus))%nat /\ sbmv_batch_copy_failed e b = true)
  \/ sbmv_pointer_copy_failed e = true ->
  (testing_sbmv_batched e argus).1 = HIPBLAS_STATUS_MAPPING_ERROR.
Proof.
  intros Hgate Hb Halloc Hneg Hfail. rewrite (sbmv_status_eq e argus Hneg).
  unfold sbmv_status.
  apply Z.eqb_neq in Hb. rewrite Hgate, Hb, Halloc.
  destruct (existsb _ _) eqn:Hex; [reflexivity|].
  destruct Hfail as [(b & Hlt & Hf)| ->]; [|reflexivity].
  assert (existsb (sbmv_batch_copy_failed e) (seq 0 (Z.to_nat (batch_count argus))) = true)
    as Hex'.
  { apply existsb_exists. exists b. split; [|exact Hf]. apply in_seq. lia. }
  congruence.
Qed.

(** ** The host vectors after the initialisation loop *)

Section SbmvInit.
Context `{Externals}.
Variables (e : env) (M lda incx incy A_size X_size Y_size : Z).
Hypothesis Hsizes : sizes_negative A_size X_size Y_size = false.

Local Abbreviation init_A := (sbmv_init_A M lda A_size).
Local Abbreviation init_x := (sbmv_init_x M lda incx A_size X_size).
Local Abbreviation init_y := (sbmv_init_y M lda incx incy A_size X_size Y_size).
Local Abbreviation batch_host := (sbmv_batch_host M lda incx incy A_size X_size Y_size).
Local Abbreviation initialised :=
  (batch_initialised M lda incx incy A_size X_size Y_size).

Lemma sbmv_init_batch_host (b : nat) (w : world) :
  host (sbmv_init_batch e M lda incx incy A_size X_size Y_size b w).2
  = batch_host b (host w).
Proof.
  destruct (sizes_negative_false _ _ _ Hsizes) as (HA & HX & HY).
  unfold sbmv_init_batch, sbmv_batch_host, sbmv_init_y, sbmv_init_x, sbmv_init_A,
    host_vector.
  rewrite HA, HX, HY. unfold_prog.
  match goal with |- context [if ?c then _ else _] => destruct c end; unfold_prog;
    repeat first [rewrite fn_lookup_insert | rewrite fn_lookup_insert_ne by discriminate];
    reflexivity.
Qed.

Lemma sbmv_batch_host_same (b : nat) (h0 : hbuf -> list T) :
  initialised (batch_host b h0) b.
Proof.
  unfold batch_initialised, sbmv_batch_host.
  repeat split;
    repeat first [rewrite fn_lookup_insert | rewrite fn_lookup_insert_ne by discriminate];
    reflexivity.
Qed.

Lemma sbmv_batch_host_other (b b' : nat) (h0 : hbuf -> list T) :
  b <> b' ->
  batch_host b h0 (hA_array b') = h0 (hA_array b') /\
  batch_host b h0 (hx_array b') = h0 (hx_array b') /\
  batch_host b h0 (hy_array b') = h0 (hy_array b').
Proof.
  intros Hne. unfold sbmv_batch_host.
  repeat split; rewrite !fn_lookup_insert_ne by congruence; reflexivity.
Qed.

(** A batch that is initialised stays so through later passes. *)
Lemma sbmv_init_passes_keep (bs : list nat) (b0 : nat) (w : world) :
  initialised (host w) b0 ->
  initialised
    (host (for_each bs (sbmv_init_batch e M lda incx incy A_size X_size Y_size) w).2) b0.
Proof.
  revert w. induction bs as [|b bs IH]; intros w Hw; cbn [for_each]; [exact Hw|].
  unfold mbind, prog_bind.
  pose proof (sbmv_init_batch_host b w) as Hhost.
  pose proof (sbmv_init_batch_result e M lda incx incy A_size X_size Y_size b w Hsizes)
    as Hres.
  assert (initialised (batch_host b (host w)) b0) as Hstep.
  { destruct (decide (b = b0)) as [->|Hne]; [apply sbmv_batch_host_same|].
    destruct (sbmv_batch_host_other b b0 (host w) Hne) as (HA & Hx & Hy).
    destruct Hw as (HwA & Hwx & Hwy).
    split; [|split]; congruence. }
  rewrite <- Hhost in Hstep.
  destruct (sbmv_init_batch e M lda incx incy A_size X_size Y_size b w) as [[[]|s|] w1].
  - apply IH. exact Hstep.
  - exact Hstep.
  - exact Hstep.
Qed.

(** When the loop runs to its end, every batch it went over is
    initialised. *)
Lemma sbmv_init_passes_all (bs : list nat) (w : world) :
  (for_each bs (sbmv_init_batch e M lda incx incy A_size X_size Y_size) w).1 = Next tt ->
  forall b0, In b0 bs ->
  initialised
    (host (for_each bs (sbmv_init_batch e M lda incx incy A_size X_size Y_size) w).2) b0.
Proof.
  revert w. induction bs as [|b bs IH]; intros w Hnext b0 Hin; [destruct Hin|].
  cbn [for_each] in *. unfold mbind, prog_bind in *.
  pose proof (sbmv_init_batch_host b w) as Hhost.
  pose proof (sbmv_batch_host_same b (host w)) as Hsame. rewrite <- Hhost in Hsame.
  destruct (sbmv_init_batch e M lda incx incy A_size X_size Y_size b w) as [[[]|s|] w1];
    [|discriminate|discriminate].
  destruct (decide (b = b0)) as [->|Hne].
  - apply sbmv_init_passes_keep. exact Hsame.
  - destruct Hin as [Heq|Hin]; [contradiction|]. apply IH; assumption.
Qed.

(** A pass that the loop reaches, no earlier pass having failed, leaves its
    batch initialised, whether the loop then runs to its end or returns
    early. *)
Lemma sbmv_init_passes_reached (l1 l2 : list nat) (b0 : nat) (w : world) :
  Forall (fun b => sbmv_batch_copy_failed e b = false) l1 ->
  initialised
    (host (for_each (l1 ++ b0 :: l2)
             (sbmv_init_batch e M lda incx incy A_size X_size Y_size) w).2) b0.
Proof.
  revert w. induction l1 as [|b l1 IH]; intros w Hl1; cbn [app for_each];
    unfold mbind, prog_bind.
  - pose proof (sbmv_init_batch_host b0 w) as Hhost.
    pose proof (sbmv_batch_host_same b0 (host w)) as Hsame. rewrite <- Hhost in Hsame.
    destruct (sbmv_init_batch e M lda incx incy A_size X_size Y_size b0 w)
      as [[[]|s|] w1]; [apply sbmv_init_passes_keep| |]; exact Hsame.
  - inversion Hl1 as [|? ? Hb Hrest]; subst.
    pose proof (sbmv_init_batch_result e M lda incx incy A_size X_size Y_size b w Hsizes)
      as Hres.
    rewrite Hb in Hres.
    destruct (sbmv_init_batch e M lda incx incy A_size X_size Y_size b w)
      as [[[]|s|] w1]; [apply IH; exact Hrest | discriminate Hres | discriminate Hres].
Qed.

Lemma sbmv_init_loop_reached (n : Z) (b0 : nat) (w : world) :
  Z.of_nat b0 < n ->
  (forall b, (b < b0)%nat -> sbmv_batch_copy_failed e b = false) ->
  initialised
    (host (sbmv_init_loop e M lda incx incy A_size X_size Y_size n w).2) b0.
Proof.
  intros Hb0 Hok. unfold sbmv_init_loop.
  replace (Z.to_nat n) with (b0 + S (Z.to_nat n - S b0))%nat by lia.
  rewrite seq_app. cbn [seq Nat.add].
  apply sbmv_init_passes_reached.
  apply List.Forall_forall. intros b Hb. apply in_seq in Hb. apply Hok. lia.
Qed.
End SbmvInit.

(** ** Where the sizes and the written cells are in order *)

(** For K below INT_MAX the sum K + 1 of the sanity check is the integer
    K + 1. *)
Lemma int_add_succ_exact (k : Z) : 0 <= k < int_max -> int_add k 1 = k + 1.
Proof.
  intros Hk. apply int_add_exact. unfold int_range, int_min, int_max in *. lia.
Qed.

(** An M x N matrix with leading dimension ld >= M stays within ld * N
    cells, when ld * N is an [int]. *)
Lemma hipblas_init_indices_in_bounds `{Externals} (M N ld idx : Z) :
  M <= ld -> int_range (ld * N) ->
  In idx (hipblas_init_indices M N ld) -> 0 <= idx < ld * N.
Proof.
  intros Hld Hrange Hin. unfold hipblas_init_indices in Hin.
  apply in_flat_map in Hin. destruct Hin as (i & Hi & Hin).
  apply in_map_iff in Hin. destruct Hin as (j & <- & Hj).
  apply list_elem_of_In, elem_of_seqZ in Hi, Hj.
  assert (0 <= j * ld <= (N - 1) * ld) as Hjl by nia.
  assert (int_range (j * ld)) as Hr1
    by (unfold int_range, int_min, int_max in *; nia).
  unfold int_add. rewrite (int_mul_exact j ld Hr1).
  rewrite wrap_id; [nia|]. unfold int_range, int_min, int_max in *. nia.
Qed.

(** With positive increments and products that are [int]s, the three sizes
    of testing_sbmv_batched are not negative on accepted input. *)
Lemma sbmv_sizes_nonnegative `{Externals} (argus : Arguments) :
  sbmv_batched_invalid (M argus) (K argus) (lda argus) (incx argus) (incy argus)
    (batch_count argus) = false ->
  K argus < int_max ->
  0 < incx argus -> 0 < incy argus ->
  int_range (lda argus * M argus) ->
  int_range (M argus * incx argus) ->
  int_range (M argus * incy argus) ->
  0 <= sbmv_A_size argus /\ 0 <= sbmv_X_size argus /\ 0 <= sbmv_Y_size argus.
Proof.
  unfold sbmv_batched_invalid, sbmv_A_size, sbmv_X_size, sbmv_Y_size.
  intros Hgate HK Hx Hy HrA Hrx Hry.
  repeat (apply orb_false_elim in Hgate; destruct Hgate as [Hgate ?]).
  repeat match goal with
         | Hc : (_ <? _) = false |- _ => apply Z.ltb_ge in Hc
         end.
  rewrite int_add_succ_exact in * by lia.
  rewrite !int_mul_exact by assumption. nia.
Qed.

(** On input the sanity check of testing_her2k accepts, with products that
    are [int]s, no size is negative. *)
Lemma her2k_sizes_nonnegative `{Externals} (argus : Arguments) :
  her2k_accepted argus ->
  int_range (lda argus * her2k_K1 (N argus) (K argus)
                           (char2hipblas_operation (transA_option argus))) ->
  int_range (ldc argus * N argus) ->
  her2k_size_negative argus = false.
Proof.
  intros Hacc HrA HrC. apply her2k_size_negative_false.
  - unfold her2k_accepted, her2k_invalid in Hacc. unfold her2k_A_size.
    rewrite (int_mul_exact _ _ HrA).
    repeat (apply orb_false_elim in Hacc; destruct Hacc as [Hacc ?]).
    repeat match goal with
           | Hc : (_ <? _) = false |- _ => apply Z.ltb_ge in Hc
           end.
    unfold her2k_K1 in *.
    destruct (decide (char2hipblas_operation (transA_option argus) = HIPBLAS_OP_N))
      as [Ht|Ht].
    + rewrite (bool_decide_eq_true_2 _ Ht) in *.
      match goal with
      | Hc : true && _ = false |- _ =>
          cbn [andb] in Hc; apply orb_false_elim in Hc; destruct Hc as [Ha Hb];
          apply Z.ltb_ge in Ha, Hb
      end.
      nia.
    + rewrite (bool_decide_eq_false_2 _ Ht) in *.
      rewrite (bool_decide_eq_true_2
                 (char2hipblas_operation (transA_option argus) <> HIPBLAS_OP_N) Ht) in *.
      match goal with
      | Hc : true && _ = false |- _ =>
          cbn [andb] in Hc; apply orb_false_elim in Hc; destruct Hc as [Ha Hb];
          apply Z.ltb_ge in Ha, Hb
      end.
      nia.
  - unfold her2k_accepted, her2k_invalid in Hacc. unfold her2k_C_size.
    rewrite (int_mul_exact _ _ HrC).
    repeat (apply orb_false_elim in Hacc; destruct Hacc as [Hacc ?]).
    repeat match goal with
           | Hc : (_ <? _) = false |- _ => apply Z.ltb_ge in Hc
           end.
    nia.
Qed.

(** * The claims of the specification *)

(** C1: when a dimension is negative, a leading dimension is below the
    minimum of the access pattern (ldc < N; lda or ldb below N, or below K,
    for her2k according to transA; lda < K + 1 for sbmv_batched, as
    integers for K below INT_MAX and in general with the routine's [int]
    sum K + 1), or an increment is zero, the routine
    returns the invalid-value status and its trace is empty: no host or
    device buffer was allocated and no handle was created. *)
Theorem C1_invalid_arguments_rejected_first `{Externals} (e : env) (argus : Arguments) :
  let transA := char2hipblas_operation (transA_option argus) in
  ((N argus < 0 \/ K argus < 0 \/ ldc argus < N argus
    \/ (transA = HIPBLAS_OP_N /\ (lda argus < N argus \/ ldb argus < N argus))
    \/ (transA <> HIPBLAS_OP_N /\ (lda argus < K argus \/ ldb argus < K argus))) ->
   (testing_her2k e argus).1 = HIPBLAS_STATUS_INVALID_VALUE /\
   trace (testing_her2k e argus).2 = [])
  /\
  ((M argus < 0 \/ K argus < 0
    \/ (K argus < int_max /\ lda argus < K argus + 1)
    \/ lda argus < int_add (K argus) 1
    \/ incx argus = 0 \/ incy argus = 0 \/ batch_count argus < 0) ->
   (testing_sbmv_batched e argus).1 = HIPBLAS_STATUS_INVALID_VALUE /\
   trace (testing_sbmv_batched e argus).2 = []).
Proof.
  intros transA. split; intros Hbad.
  - rewrite her2k_invalid_run; [split; reflexivity|].
    fold transA. unfold her2k_invalid.
    destruct Hbad as [Hb|[Hb|[Hb|[[Ht Hb]|[Ht Hb]]]]].
    + apply Z.ltb_lt in Hb. rewrite Hb. reflexivity.
    + apply Z.ltb_lt in Hb. rewrite Hb. rewrite !orb_true_r. reflexivity.
    + apply Z.ltb_lt in Hb. rewrite Hb. rewrite !orb_true_r. reflexivity.
    + rewrite (bool_decide_eq_true_2 _ Ht).
      assert ((lda argus <? N argus) || (ldb argus <? N argus) = true) as ->
        by (destruct Hb as [Hb|Hb]; apply Z.ltb_lt in Hb; rewrite Hb;
            rewrite ?orb_true_r; reflexivity).
      rewrite !orb_true_r. reflexivity.
    + rewrite (bool_decide_eq_true_2 (transA <> HIPBLAS_OP_N) Ht).
      assert ((lda argus <? K argus) || (ldb argus <? K argus) = true) as ->
        by (destruct Hb as [Hb|Hb]; apply Z.ltb_lt in Hb; rewrite Hb;
            rewrite ?orb_true_r; reflexivity).
      rewrite !orb_true_r. reflexivity.
  - rewrite sbmv_invalid_run; [split; reflexivity|].
    unfold sbmv_batched_invalid.
    assert (K argus < 0 \/ lda argus < int_add (K argus) 1 ->
            (K argus <? 0) || (lda argus <? int_add (K argus) 1) = true) as Hlda
      by (intros [Hb|Hb]; apply Z.ltb_lt in Hb; rewrite Hb; rewrite ?orb_true_r;
          reflexivity).
    destruct Hbad as [Hb|[Hb|[[HK Hb]|[Hb|[Hb|[Hb|Hb]]]]]].
    + apply Z.ltb_lt in Hb. rewrite Hb. reflexivity.
    + rewrite <- !orb_assoc, (orb_assoc (K argus <? 0)), Hlda by auto.
      rewrite ?orb_true_r. reflexivity.
    + rewrite <- !orb_assoc, (orb_assoc (K argus <? 0)), Hlda; [rewrite ?orb_true_r; reflexivity|].
      destruct (Z.lt_ge_cases (K argus) 0) as [Hneg|Hpos]; [left; exact Hneg|right].
      rewrite int_add_succ_exact by lia. exact Hb.
    + rewrite <- !orb_assoc, (orb_assoc (K argus <? 0)), Hlda by auto.
      rewrite ?orb_true_r. reflexivity.
    + apply Z.eqb_eq in Hb. rewrite Hb. rewrite ?orb_true_r. reflexivity.
    + apply Z.eqb_eq in Hb. rewrite Hb. rewrite ?orb_true_r. reflexivity.
    + apply Z.ltb_lt in Hb. rewrite Hb. rewrite ?orb_true_r. reflexivity.
Qed.

Lemma C1_invalid_arguments_rejected_first_witness :
  ((testing_her2k sample_env negative_K_arguments).1 = HIPBLAS_STATUS_INVALID_VALUE /\
   trace (testing_her2k sample_env negative_K_arguments).2 = [])
  /\
  ((testing_sbmv_batched sample_env zero_incx_arguments).1 = HIPBLAS_STATUS_INVALID_VALUE /\
   trace (testing_sbmv_batched sample_env zero_incx_arguments).2 = []).
Proof.
  split.
  - apply (proj1 (C1_invalid_arguments_rejected_first sample_env negative_K_arguments)).
    right; left. simpl. lia.
  - apply (proj2 (C1_invalid_arguments_rejected_first sample_env zero_incx_arguments)).
    right; right; right; right; left. reflexivity.
Defined.

(** C2: with batch_count = 0 and the other arguments passing the sanity
    check, testing_sbmv_batched returns the success status and its trace is
    empty: no batch buffer was allocated, read or written and no handle was
    created; the host vectors are those of the initial state. *)
Theorem C2_zero_batch_count_immediate_success `{Externals} (e : env) (argus : Arguments) :
  0 <= M argus -> 0 <= K argus -> int_add (K argus) 1 <= lda argus ->
  incx argus <> 0 -> incy argus <> 0 -> batch_count argus = 0 ->
  testing_sbmv_batched e argus = (Returned HIPBLAS_STATUS_SUCCESS, initial_world e) /\
  trace (testing_sbmv_batched e argus).2 = [].
Proof.
  intros HM HK Hlda Hx Hy Hb.
  assert (sbmv_batched_invalid (M argus) (K argus) (lda argus) (incx argus)
            (incy argus) (batch_count argus) = false) as Hgate.
  { unfold sbmv_batched_invalid. rewrite Hb.
    apply Z.ltb_ge in HM, HK, Hlda. apply Z.eqb_neq in Hx, Hy.
    rewrite HM, HK, Hlda, Hx, Hy. reflexivity. }
  rewrite (sbmv_zero_batch_run e argus Hgate Hb). split; reflexivity.
Qed.

Lemma C2_zero_batch_count_immediate_success_witness :
  testing_sbmv_batched sample_env zero_batch_arguments
    = (Returned HIPBLAS_STATUS_SUCCESS, initial_world sample_env) /\
  trace (testing_sbmv_batched sample_env zero_batch_arguments).2 = [].
Proof.
  apply (C2_zero_batch_count_immediate_success sample_env zero_batch_arguments);
    simpl; try lia; vm_compute; discriminate.
Defined.

(** C3: in a run of testing_her2k or testing_sbmv_batched whose GPU routine
    returned a status other than success, the routine returns exactly that
    status; the GPU call and hipblasDestroy are the last two calls of the
    run and each occurs once (no retry), and the run contains no
    device-to-host copy, no call of the CPU reference routine and no unit
    check. *)
Theorem C3_gpu_failure_destroys_and_propagates `{Externals}
    (e : env) (argus : Arguments) (st : hipblasStatus_t) :
  st <> HIPBLAS_STATUS_SUCCESS ->
  forall r, (r = testing_her2k e argus \/ r = testing_sbmv_batched e argus) ->
  EvGpu st ∈ trace r.2 ->
  r.1 = st /\
  (exists before, trace r.2 = before ++ [EvGpu st; EvDestroy] /\
                  count is_gpu before = O /\ count is_destroy before = O) /\
  count is_gpu (trace r.2) = 1%nat /\
  count is_destroy (trace r.2) = 1%nat /\
  count is_d2h (trace r.2) = O /\
  count is_cblas (trace r.2) = O /\
  count is_unit_check (trace r.2) = O.
Proof.
  intros Hst r [-> | ->] Hin.
  - exact (run_shape_gpu_failure _ _ _ (her2k_run_shape e argus) Hin Hst).
  - exact (run_shape_gpu_failure _ _ _ (sbmv_run_shape e argus) Hin Hst).
Qed.

Lemma C3_gpu_failure_destroys_and_propagates_witness :
  (testing_sbmv_batched gpu_failure_env sample_arguments).1
    = HIPBLAS_STATUS_EXECUTION_FAILED /\
  count is_destroy (trace (testing_sbmv_batched gpu_failure_env sample_arguments).2)
    = 1%nat.
Proof.
  pose proof (C3_gpu_failure_destroys_and_propagates gpu_failure_env sample_arguments
                HIPBLAS_STATUS_EXECUTION_FAILED) as Hc.
  destruct (Hc ltac:(discriminate) _ (or_intror eq_refl)) as (Hs & _ & _ & Hd & _).
  - vm_compute. do 34 apply list_elem_of_further. apply list_elem_of_here.
  - split; [exact Hs | exact Hd].
Defined.

(** C4 as amended: with N = 0, the other arguments passing the sanity
    check and the product lda * K1 an [int], testing_her2k does not return
    at once.  It allocates its seven buffers, the three C buffers with
    C_size = 0 elements, creates the handle, initialises (writing no
    element, the matrices having N = 0 rows) and copies the inputs, calls
    the GPU routine once and returns the status of the GPU routine,
    destroying the handle; when the GPU routine succeeded it copies the
    result back and, if unit_check is set, runs the CPU routine and the
    unit check.  testing_sbmv_batched does not read N: its run is the same
    for every N, and it returns success without any external call only
    when batch_count is 0. *)
Theorem C4_zero_N_runs_whole_cycle `{Externals} (e : env) (argus : Arguments) :
  let transA := char2hipblas_operation (transA_option argus) in
  N argus = 0 ->
  0 <= K argus -> 0 <= ldc argus ->
  (transA = HIPBLAS_OP_N -> 0 <= lda argus /\ 0 <= ldb argus) ->
  (transA <> HIPBLAS_OP_N -> K argus <= lda argus /\ K argus <= ldb argus) ->
  int_range (lda argus * her2k_K1 (N argus) (K argus) transA) ->
  ((testing_her2k e argus).1 = gpu_status e /\
   trace (testing_her2k e argus).2 =
     her2k_allocations argus ++ EvCreate :: her2k_setup argus
     ++ EvGpu (gpu_status e)
     :: (if bool_decide (gpu_status e <> HIPBLAS_STATUS_SUCCESS) then []
         else her2k_check argus) ++ [EvDestroy] /\
   count is_alloc (trace (testing_her2k e argus).2) = 7%nat /\
   her2k_C_size argus = 0 /\
   (forall cols ld, hipblas_init_indices (N argus) cols ld = []))
  /\
  (forall n, testing_sbmv_batched e (with_N n argus) = testing_sbmv_batched e argus)
  /\
  ((testing_sbmv_batched e argus).1 = HIPBLAS_STATUS_SUCCESS ->
   trace (testing_sbmv_batched e argus).2 = [] ->
   batch_count argus = 0).
Proof.
  intros transA HN HK Hldc HtN HtT HrA. split; [|split; [reflexivity|]].
  - assert (her2k_accepted argus) as Hacc.
    { unfold her2k_accepted, her2k_invalid. fold transA. rewrite HN.
      apply Z.ltb_ge in HK, Hldc. rewrite HK, Hldc. simpl.
      destruct (decide (transA = HIPBLAS_OP_N)) as [Ht|Ht].
      - destruct (HtN Ht) as [Ha Hb]. apply Z.ltb_ge in Ha, Hb. rewrite Ha, Hb.
        rewrite (bool_decide_eq_false_2 (transA <> HIPBLAS_OP_N)) by tauto.
        rewrite andb_false_r. reflexivity.
      - destruct (HtT Ht) as [Ha Hb]. apply Z.ltb_ge in Ha, Hb. rewrite Ha, Hb.
        rewrite (bool_decide_eq_false_2 _ Ht). rewrite andb_false_r. reflexivity. }
    assert (her2k_C_size argus = 0) as HC.
    { unfold her2k_C_size. rewrite HN. unfold int_mul. rewrite Z.mul_0_r. reflexivity. }
    assert (0 <= her2k_A_size argus) as HA.
    { unfold her2k_A_size. fold transA. rewrite (int_mul_exact _ _ HrA).
      unfold her2k_K1. rewrite HN.
      destruct (decide (transA = HIPBLAS_OP_N)) as [Ht|Ht].
      - rewrite (bool_decide_eq_true_2 _ Ht). destruct (HtN Ht). nia.
      - rewrite (bool_decide_eq_false_2 _ Ht). lia. }
    assert (her2k_size_negative argus = false) as Hneg
      by (apply her2k_size_negative_false; [exact HA | rewrite HC; lia]).
    destruct (her2k_accepted_run e argus Hacc Hneg) as [Hst Htr].
    split; [exact Hst|]. split; [exact Htr|]. split; [|split].
    + rewrite Htr. unfold her2k_allocations, her2k_setup, her2k_check.
      destruct (truthy (timing argus)), (truthy (unit_check argus));
        case_bool_decide; reflexivity.
    + exact HC.
    + intros cols ld. rewrite HN. reflexivity.
  - rewrite sbmv_outcome_eq, sbmv_trace_exact. unfold sbmv_outcome, sbmv_trace.
    destruct (sbmv_batched_invalid _ _ _ _ _ _); [discriminate|].
    destruct (batch_count argus =? 0) eqn:Hb; [intros _ _; apply Z.eqb_eq, Hb|].
    intros _ Htr. discriminate Htr.
Qed.

Lemma C4_zero_N_runs_whole_cycle_witness :
  (testing_her2k sample_env zero_N_arguments).1 = HIPBLAS_STATUS_SUCCESS /\
  count is_alloc (trace (testing_her2k sample_env zero_N_arguments).2) = 7%nat.
Proof.
  destruct (C4_zero_N_runs_whole_cycle sample_env zero_N_arguments)
    as [(Hs & _ & Ha & _) _].
  - reflexivity.
  - simpl. lia.
  - simpl. lia.
  - intros _. simpl. lia.
  - intros _. simpl. lia.
  - vm_compute. split; discriminate.
  - split; [exact Hs | exact Ha].
Defined.

(** C4 as stated fails: with N = 0, K = 1, lda = 2, ldb = ldc = 1 and
    unit_check set, testing_her2k returns success only after allocating its
    seven buffers and running the unit check; testing_sbmv_batched, given
    the same arguments (M = 2, batch_count = 2), allocates as well. *)
Lemma C4_counterexample :
  N zero_N_arguments = 0 /\
  her2k_accepted zero_N_arguments /\
  sbmv_batched_invalid (M zero_N_arguments) (K zero_N_arguments) (lda zero_N_arguments)
    (incx zero_N_arguments) (incy zero_N_arguments) (batch_count zero_N_arguments)
    = false /\
  count is_alloc (trace (testing_her2k sample_env zero_N_arguments).2) = 7%nat /\
  count is_unit_check (trace (testing_her2k sample_env zero_N_arguments).2) = 1%nat /\
  host (testing_her2k sample_env zero_N_arguments).2 hA = [0; 0] /\
  count is_alloc (trace (testing_sbmv_batched sample_env zero_N_arguments).2) = 15%nat.
Proof. repeat split; vm_compute; reflexivity. Qed.

(** C5 as amended: with a negative K the routine returns the invalid-value
    status before hipblasCreate; no handle is created and hipblasDestroy is
    not called. *)
Theorem C5_negative_K_rejected_without_handle `{Externals} (e : env) (argus : Arguments) :
  K argus < 0 ->
  forall r, (r = testing_her2k e argus \/ r = testing_sbmv_batched e argus) ->
  r.1 = HIPBLAS_STATUS_INVALID_VALUE /\
  count is_create (trace r.2) = O /\
  count is_destroy (trace r.2) = O.
Proof.
  intros HK r Hr.
  assert (r = (Returned HIPBLAS_STATUS_INVALID_VALUE, initial_world e)) as ->.
  { apply Z.ltb_lt in HK. destruct Hr as [-> | ->].
    - apply her2k_invalid_run. unfold her2k_invalid. rewrite HK.
      rewrite !orb_true_r. reflexivity.
    - apply sbmv_invalid_run. unfold sbmv_batched_invalid. rewrite HK.
      rewrite !orb_true_r. reflexivity. }
  repeat split.
Qed.

Lemma C5_negative_K_rejected_without_handle_witness :
  (testing_her2k sample_env negative_K_arguments).1 = HIPBLAS_STATUS_INVALID_VALUE /\
  count is_create (trace (testing_her2k sample_env negative_K_arguments).2) = O /\
  count is_destroy (trace (testing_her2k sample_env negative_K_arguments).2) = O.
Proof.
  apply (C5_negative_K_rejected_without_handle sample_env negative_K_arguments).
  - simpl. lia.
  - left. reflexivity.
Defined.

(** C5 as stated fails: with K = -1 neither routine calls hipblasDestroy,
    so the handle is not destroyed exactly once. *)
Lemma C5_counterexample :
  K negative_K_arguments < 0 /\
  count is_destroy (trace (testing_her2k sample_env negative_K_arguments).2) <> 1%nat /\
  count is_destroy (trace (testing_sbmv_batched sample_env negative_K_arguments).2)
    <> 1%nat.
Proof. repeat split; vm_compute; discriminate. Qed.

(** C6 fails on the code at these inputs.  In testing_her2k the first
    host-to-device copy fails (as do all the others), yet the run goes on to
    the GPU routine and returns success, not the mapping error.  In
    testing_sbmv_batched the device-to-host copies fail and the routine
    returns success as well. *)
Theorem C6_copy_failures_ignored :
  (hipMemcpy_result copy_failure_env (Device dA) (Host hA) <> hipSuccess /\
   EvMemcpy (Device dA) (Host hA) 24 hipMemcpyHostToDevice
     ∈ trace (testing_her2k copy_failure_env sample_arguments).2 /\
   count is_gpu (trace (testing_her2k copy_failure_env sample_arguments).2) = 1%nat /\
   (testing_her2k copy_failure_env sample_arguments).1 = HIPBLAS_STATUS_SUCCESS)
  /\
  (hipMemcpy_result copy_back_failure_env (Host (hres_array 0)) (Device (by_array 0))
     <> hipSuccess /\
   EvMemcpy (Host (hres_array 0)) (Device (by_array 0)) 8 hipMemcpyDeviceToHost
     ∈ trace (testing_sbmv_batched copy_back_failure_env sample_arguments).2 /\
   (testing_sbmv_batched copy_back_failure_env sample_arguments).1
     = HIPBLAS_STATUS_SUCCESS).
Proof.
  split; [split; [|split; [|split]] | split; [|split]].
  - vm_compute. discriminate.
  - vm_compute. do 12 apply list_elem_of_further. apply list_elem_of_here.
  - vm_compute. reflexivity.
  - vm_compute. reflexivity.
  - vm_compute. discriminate.
  - vm_compute. do 35 apply list_elem_of_further. apply list_elem_of_here.
  - vm_compute. reflexivity.
Qed.

(** C7 as amended: in every run of testing_her2k or testing_sbmv_batched
    that called hipblasCreate and returned a status, hipblasCreate was
    called once and hipblasDestroy was called once, as the last call before
    the routine returned; this covers the returns after an allocation
    failure, a transfer failure and a non-success GPU status as well as the
    normal return. *)
Theorem C7_handle_destroyed_exactly_once `{Externals}
    (e : env) (argus : Arguments) (s : hipblasStatus_t) :
  forall r, (r = testing_her2k e argus \/ r = testing_sbmv_batched e argus) ->
  EvCreate ∈ trace r.2 ->
  r.1 = Returned s ->
  count is_create (trace r.2) = 1%nat /\
  count is_destroy (trace r.2) = 1%nat /\
  exists before, trace r.2 = before ++ [EvDestroy].
Proof.
  intros r [-> | ->] Hin Hret.
  - exact (run_shape_handle _ _ _ (her2k_run_shape e argus) Hret Hin).
  - exact (run_shape_handle _ _ _ (sbmv_run_shape e argus) Hret Hin).
Qed.

Lemma C7_handle_destroyed_exactly_once_witness :
  count is_create (trace (testing_her2k sample_env sample_arguments).2) = 1%nat /\
  count is_destroy (trace (testing_her2k sample_env sample_arguments).2) = 1%nat.
Proof.
  destruct (C7_handle_destroyed_exactly_once sample_env sample_arguments
              HIPBLAS_STATUS_SUCCESS _ (or_introl eq_refl)) as (Hc & Hd & _).
  - vm_compute. do 7 apply list_elem_of_further. apply list_elem_of_here.
  - reflexivity.
  - split; [exact Hc | exact Hd].
Defined.

(** C7 as stated fails: with M = 2, K = 0, lda = 1, incx = -1, incy = 1,
    batch_count = 1, an input the sanity check accepts, and every device
    allocation answered, testing_sbmv_batched calls hipblasCreate and then
    faults at the host vector of X_size = -2 elements in the first pass of
    the initialisation loop: the run returns no status and hipblasDestroy
    is not called. *)
Lemma C7_counterexample :
  sbmv_accepted negative_incx_arguments /\
  EvCreate ∈ trace (testing_sbmv_batched sample_env negative_incx_arguments).2 /\
  (testing_sbmv_batched sample_env negative_incx_arguments).1 = Faulted /\
  trace (testing_sbmv_batched sample_env negative_incx_arguments).2 =
    [EvCreate; EvDeviceAlloc (bA_array 0) 2; EvDeviceAlloc (bx_array 0) (-2);
     EvDeviceAlloc (by_array 0) 2; EvDeviceAlloc dA_array 1; EvDeviceAlloc dx_array 1;
     EvDeviceAlloc dy_array 1; EvSrand 1; EvHostAlloc (hA_array 0) 2;
     EvHostAlloc (hx_array 0) (-2)] /\
  count is_destroy (trace (testing_sbmv_batched sample_env negative_incx_arguments).2)
    <> 1%nat.
Proof.
  split; [reflexivity|]. split; [vm_compute; apply list_elem_of_here|].
  split; [reflexivity|]. split; [reflexivity|]. vm_compute. discriminate.
Qed.

(** C8: in testing_sbmv_batched, for any two batch indices b1, b2 below
    batch_count whose passes the initialisation loop reaches (no copy of an
    earlier pass having failed), the host vectors are equal after the loop:
    hA_array[b1] = hA_array[b2], hx_array[b1] = hx_array[b2] and
    hy_array[b1] = hy_array[b2].  Each pass allocates fresh vectors and
    calls srand(1) before it fills them, so it computes the same three
    vectors whatever the state it starts from. *)
Theorem C8_batches_initialised_identically `{Externals}
    (e : env) (argus : Arguments) (w : world) (b1 b2 : nat) :
  let after_loop :=
    (sbmv_init_loop e (M argus) (lda argus) (incx argus) (incy argus)
       (sbmv_A_size argus) (sbmv_X_size argus) (sbmv_Y_size argus)
       (batch_count argus) w).2 in
  Z.of_nat b1 < batch_count argus ->
  Z.of_nat b2 < batch_count argus ->
  (forall b, (b < Nat.max b1 b2)%nat -> sbmv_batch_copy_failed e b = false) ->
  host after_loop (hA_array b1) = host after_loop (hA_array b2) /\
  host after_loop (hx_array b1) = host after_loop (hx_array b2) /\
  host after_loop (hy_array b1) = host after_loop (hy_array b2).
Proof.
  intros after_loop Hb1 Hb2 Hok. unfold after_loop.
  destruct (sizes_negative (sbmv_A_size argus) (sbmv_X_size argus) (sbmv_Y_size argus))
    eqn:Hneg.
  { rewrite sbmv_init_loop_fault by (exact Hneg || lia). repeat split. }
  destruct (sbmv_init_loop_reached e (M argus) (lda argus) (incx argus) (incy argus)
              (sbmv_A_size argus) (sbmv_X_size argus) (sbmv_Y_size argus) Hneg
              (batch_count argus) b1 w Hb1) as (HA1 & Hx1 & Hy1);
    [intros b Hb; apply Hok; lia|].
  destruct (sbmv_init_loop_reached e (M argus) (lda argus) (incx argus) (incy argus)
              (sbmv_A_size argus) (sbmv_X_size argus) (sbmv_Y_size argus) Hneg
              (batch_count argus) b2 w Hb2) as (HA2 & Hx2 & Hy2);
    [intros b Hb; apply Hok; lia|].
  rewrite HA1, HA2, Hx1, Hx2, Hy1, Hy2. repeat split.
Qed.

Lemma C8_batches_initialised_identically_witness :
  let after_loop :=
    (sbmv_init_loop sample_env 2 3 1 1 6 2 2 2 (initial_world sample_env)).2 in
  host after_loop (hA_array 0) = host after_loop (hA_array 1) /\
  host after_loop (hx_array 0) = host after_loop (hx_array 1) /\
  host after_loop (hy_array 0) = host after_loop (hy_array 1).
Proof.
  apply (C8_batches_initialised_identically sample_env sample_arguments
           (initial_world sample_env) 0 1).
  - simpl. lia.
  - simpl. lia.
  - intros b Hb. reflexivity.
Defined.

(** C9 fails on the code at N = 2, K = 2, lda = 2, ldb = 3, ldc = 2,
    transA = N, an input the sanity check accepts: hB and dB are allocated
    with lda * K1 = 4 elements, the initialisation of hB writes the cells
    0, 3, 1, 4, and cell 4 lies outside the 4 elements. *)
Theorem C9_hB_initialisation_leaves_allocation :
  her2k_accepted wide_ldb_arguments /\
  her2k_B_size wide_ldb_arguments = lda wide_ldb_arguments * 2 /\
  EvHostAlloc hB 4 ∈ trace (testing_her2k sample_env wide_ldb_arguments).2 /\
  EvDeviceAlloc dB 4 ∈ trace (testing_her2k sample_env wide_ldb_arguments).2 /\
  EvInit hB 2 2 3 ∈ trace (testing_her2k sample_env wide_ldb_arguments).2 /\
  hipblas_init_indices 2 2 3 = [0; 3; 1; 4] /\
  ~ (forall idx, idx ∈ hipblas_init_indices 2 2 3 ->
                 0 <= idx < her2k_B_size wide_ldb_arguments).
Proof.
  split; [reflexivity|]. split; [reflexivity|].
  split; [vm_compute; do 1 apply list_elem_of_further; apply list_elem_of_here|].
  split; [vm_compute; do 5 apply list_elem_of_further; apply list_elem_of_here|].
  split; [vm_compute; do 10 apply list_elem_of_further; apply list_elem_of_here|].
  split; [reflexivity|].
  intros Hall. specialize (Hall 4).
  assert (4 ∈ hipblas_init_indices 2 2 3) as Hin
    by (vm_compute; do 3 apply list_elem_of_further; apply list_elem_of_here).
  apply Hall in Hin. vm_compute in Hin. destruct Hin as [_ Hlt]. discriminate.
Qed.

(** C10 fails on the code at M = 2, K = 0, lda = 1, incx = -1, incy = 1,
    batch_count = 1: the sanity check accepts the input, X_size = M * incx
    is -2, and the run passes -2 as the size of the host and device x
    buffers. *)
Theorem C10_negative_increment_gives_negative_size :
  sbmv_batched_invalid (M negative_incx_arguments) (K negative_incx_arguments)
    (lda negative_incx_arguments) (incx negative_incx_arguments)
    (incy negative_incx_arguments) (batch_count negative_incx_arguments) = false /\
  sbmv_X_size negative_incx_arguments = -2 /\
  EvDeviceAlloc (bx_array 0) (-2)
    ∈ trace (testing_sbmv_batched sample_env negative_incx_arguments).2 /\
  EvHostAlloc (hx_array 0) (-2)
    ∈ trace (testing_sbmv_batched sample_env negative_incx_arguments).2.
Proof.
  split; [reflexivity|]. split; [reflexivity|].
  split; [vm_compute; do 2 apply list_elem_of_further; apply list_elem_of_here|].
  vm_compute; do 9 apply list_elem_of_further; apply list_elem_of_here.
Qed.

(** * Further properties of the two routines *)

(** ** Counting in the exact trace *)

Lemma count_map_true (p : event -> bool) (f : nat -> event) (l : list nat) :
  (forall b, p (f b) = true) -> count p (map f l) = length l.
Proof.
  intros Hp. induction l as [|b l IH]; cbn [map count length]; [reflexivity|].
  rewrite Hp, IH. reflexivity.
Qed.

Lemma count_map_false (p : event -> bool) (f : nat -> event) (l : list nat) :
  (forall b, p (f b) = false) -> count p (map f l) = O.
Proof.
  intros Hp. induction l as [|b l IH]; cbn [map count]; [reflexivity|].
  rewrite Hp, IH. reflexivity.
Qed.

Lemma count_flat_map_const (p : event -> bool) (f : nat -> list event) (k : nat)
    (l : list nat) :
  (forall b, count p (f b) = k) -> count p (flat_map f l) = (k * length l)%nat.
Proof.
  intros Hp. induction l as [|b l IH]; cbn [flat_map length count]; [lia|].
  rewrite count_app, Hp, IH. lia.
Qed.

Lemma passes_run_no_failure (failed : nat -> bool) (bs : list nat) :
  existsb failed bs = false -> passes_run failed bs = bs.
Proof.
  induction bs as [|b bs IH]; cbn [existsb passes_run]; [reflexivity|].
  intros Hex. apply orb_false_elim in Hex. destruct Hex as [-> Hex].
  rewrite (IH Hex). reflexivity.
Qed.

Lemma passes_run_first_failure (failed : nat -> bool) (l1 l2 : list nat) (b : nat) :
  Forall (fun b' => failed b' = false) l1 -> failed b = true ->
  passes_run failed (l1 ++ b :: l2) = l1 ++ [b] /\
  existsb failed (l1 ++ b :: l2) = true.
Proof.
  intros Hl1 Hb. induction Hl1 as [|b' l1 Hb' _ IH]; cbn [app passes_run existsb].
  - rewrite Hb. split; reflexivity.
  - rewrite Hb'. destruct IH as [-> ->]. split; reflexivity.
Qed.

Lemma seq_split_at (n b : nat) :
  (b < n)%nat -> seq 0 n = seq 0 b ++ b :: seq (S b) (n - S b).
Proof.
  intros Hb. replace n with (b + S (n - S b))%nat at 1 by lia.
  rewrite seq_app. reflexivity.
Qed.

(** ** The returned status and the early returns of testing_sbmv_batched *)

(** X1: the outcome of testing_sbmv_batched is decided in this order:
    the invalid-value status when the sanity check fails; success when
    batch_count is 0; the allocation-failed status when the allocation test
    fails; a fault, with no status returned, when A_size, X_size or Y_size
    is negative; the mapping-error status when the copies of some batch or
    of the pointer tables fail; otherwise the status of hipblasSbmvBatched.
    The trace of the run is [sbmv_trace]; that of a faulting run ends in
    the first pass of the initialisation loop, with the host allocation of
    the negative size. *)
Theorem X1_sbmv_status_and_trace `{Externals} (e : env) (argus : Arguments) :
  (testing_sbmv_batched e argus).1 = sbmv_outcome e argus /\
  trace (testing_sbmv_batched e argus).2 = sbmv_trace e argus.
Proof. split; [apply sbmv_outcome_eq | apply sbmv_trace_exact]. Qed.

(** X2: testing_her2k never looks at the pointers of its device buffers or
    at the result of a hipMemcpy: with any other answers on null pointers
    and on the copies, it returns the same status and ends in the same
    state, trace and host vectors included. *)
Theorem X2_her2k_ignores_pointers_and_copy_results `{Externals}
    (e : env) (argus : Arguments)
    (nulls : dbuf -> bool) (copies : mem -> mem -> hipError_t) :
  testing_her2k (with_answers nulls copies e) argus = testing_her2k e argus.
Proof.
  unfold testing_her2k, testing_her2k_body.
  destruct (her2k_invalid _ _ _ _ _ _); [reflexivity|].
  cbv zeta. unfold host_vector.
  destruct (int_mul (lda argus) _ <? 0); [reflexivity|].
  destruct (int_mul (ldc argus) _ <? 0); [reflexivity|].
  unfold_prog. cbn [gpu_status with_answers].
  destruct (truthy (timing argus)); unfold_prog; case_bool_decide; unfold_prog;
    [reflexivity| |reflexivity|];
    destruct (truthy (unit_check argus)); unfold_prog; reflexivity.
Qed.

Ltac count_trace :=
  repeat first
    [ rewrite count_app
    | rewrite count_map_true by (intros; reflexivity)
    | rewrite count_map_false by (intros; reflexivity)
    | rewrite (count_flat_map_const _ _ 3) by (intros; reflexivity)
    | rewrite (count_flat_map_const _ _ 0) by (intros; reflexivity)
    | rewrite length_seq
    | progress (cbn [count is_alloc is_host_alloc is_create is_destroy is_gpu is_d2h
                     is_cblas is_unit_check]) ].

(** X3: when the sanity check passes, batch_count is not 0 and the
    allocation test fails (a device array of pointers is null, or a buffer
    of the last batch is null while its size is not 0),
    testing_sbmv_batched returns the allocation-failed status; the run
    consists of hipblasCreate, the device allocations and hipblasDestroy:
    no host vector is allocated, nothing is copied and the GPU routine is
    not called. *)
Theorem X3_sbmv_allocation_failure `{Externals} (e : env) (argus : Arguments) :
  sbmv_accepted argus ->
  batch_count argus <> 0 ->
  (device_null e dA_array = true \/ device_null e dx_array = true
   \/ device_null e dy_array = true
   \/ (device_null e (bA_array (sbmv_last argus)) = true /\ sbmv_A_size argus <> 0)
   \/ (device_null e (bx_array (sbmv_last argus)) = true /\ sbmv_X_size argus <> 0)
   \/ (device_null e (by_array (sbmv_last argus)) = true /\ sbmv_Y_size argus <> 0)) ->
  (testing_sbmv_batched e argus).1 = HIPBLAS_STATUS_ALLOC_FAILED /\
  trace (testing_sbmv_batched e argus).2
    = EvCreate :: sbmv_device_allocations argus ++ [EvDestroy] /\
  count is_host_alloc (trace (testing_sbmv_batched e argus).2) = O /\
  count is_gpu (trace (testing_sbmv_batched e argus).2) = O.
Proof.
  intros Hacc Hb Hnull.
  assert (sbmv_alloc_failed e (Z.to_nat (int_sub (batch_count argus) 1))
            (sbmv_A_size argus) (sbmv_X_size argus) (sbmv_Y_size argus) = true) as Hfail.
  { unfold sbmv_alloc_failed, truthy. fold (sbmv_last argus).
    destruct Hnull as [Hn|[Hn|[Hn|[[Hn Hs]|[[Hn Hs]|[Hn Hs]]]]]];
      try apply Z.eqb_neq in Hs; rewrite Hn; try rewrite Hs; cbn [negb andb];
      rewrite ?orb_true_r; reflexivity. }
  apply Z.eqb_neq in Hb.
  assert (trace (testing_sbmv_batched e argus).2
          = EvCreate :: sbmv_device_allocations argus ++ [EvDestroy]) as Htr.
  { rewrite sbmv_trace_exact. unfold sbmv_trace. rewrite Hacc, Hb, Hfail. reflexivity. }
  split; [|split; [exact Htr|]].
  - rewrite sbmv_outcome_eq. unfold sbmv_outcome. rewrite Hacc, Hb, Hfail. reflexivity.
  - rewrite Htr. unfold sbmv_device_allocations.
    split; cbn [count is_host_alloc is_gpu]; count_trace; reflexivity.
Qed.

Lemma X3_sbmv_allocation_failure_witness :
  (testing_sbmv_batched null_pointer_array_env sample_arguments).1
    = HIPBLAS_STATUS_ALLOC_FAILED /\
  count is_host_alloc (trace (testing_sbmv_batched null_pointer_array_env
                                sample_arguments).2) = O.
Proof.
  destruct (X3_sbmv_allocation_failure null_pointer_array_env sample_arguments)
    as (Hs & _ & Hh & _).
  - reflexivity.
  - simpl. lia.
  - right; left. reflexivity.
  - split; [exact Hs | exact Hh].
Defined.

(** X4: the allocation test of testing_sbmv_batched reads the three device
    arrays of pointers and, of the per-batch buffers, only those of the
    last batch: with any other answers on the pointers of the other batches
    the routine returns the same status and ends in the same state. *)
Theorem X4_sbmv_allocation_test_reads_last_batch `{Externals}
    (e : env) (argus : Arguments) (nulls : dbuf -> bool) :
  nulls dA_array = device_null e dA_array ->
  nulls dx_array = device_null e dx_array ->
  nulls dy_array = device_null e dy_array ->
  nulls (bA_array (sbmv_last argus)) = device_null e (bA_array (sbmv_last argus)) ->
  nulls (bx_array (sbmv_last argus)) = device_null e (bx_array (sbmv_last argus)) ->
  nulls (by_array (sbmv_last argus)) = device_null e (by_array (sbmv_last argus)) ->
  testing_sbmv_batched (with_answers nulls (hipMemcpy_result e) e) argus
  = testing_sbmv_batched e argus.
Proof.
  intros HA Hx Hy HbA Hbx Hby.
  assert (forall A_size X_size Y_size,
             sbmv_alloc_failed (with_answers nulls (hipMemcpy_result e) e)
               (Z.to_nat (int_sub (batch_count argus) 1)) A_size X_size Y_size
             = sbmv_alloc_failed e (Z.to_nat (int_sub (batch_count argus) 1))
                 A_size X_size Y_size) as Halloc.
  { intros. unfold sbmv_alloc_failed. cbn [device_null with_answers].
    fold (sbmv_last argus). rewrite HA, Hx, Hy, HbA, Hbx, Hby. reflexivity. }
  unfold testing_sbmv_batched, testing_sbmv_batched_body. cbv zeta.
  rewrite Halloc. reflexivity.
Qed.

Lemma X4_sbmv_allocation_test_reads_last_batch_witness :
  testing_sbmv_batched
    (with_answers (fun d => match d with bA_array O => true | _ => false end)
       (hipMemcpy_result sample_env) sample_env) sample_arguments
  = testing_sbmv_batched sample_env sample_arguments.
Proof.
  apply (X4_sbmv_allocation_test_reads_last_batch sample_env sample_arguments);
    reflexivity.
Defined.

(** X5: when the sanity check and the allocation test pass and batch b is
    the first whose host-to-device copies fail, testing_sbmv_batched
    returns the mapping-error status after exactly b + 1 passes of the
    initialisation loop, provided none of the sizes A_size, X_size, Y_size
    is negative: it has allocated the 3 * (b + 1) host vectors of
    the batches 0 .. b and none of a later batch, it has not copied the
    pointer tables and has not called the GPU routine. *)
Theorem X5_sbmv_first_failing_batch `{Externals}
    (e : env) (argus : Arguments) (b : nat) :
  sbmv_accepted argus ->
  sbmv_alloc_failed e (sbmv_last argus)
    (sbmv_A_size argus) (sbmv_X_size argus) (sbmv_Y_size argus) = false ->
  0 <= sbmv_A_size argus -> 0 <= sbmv_X_size argus -> 0 <= sbmv_Y_size argus ->
  Z.of_nat b < batch_count argus ->
  (forall b', (b' < b)%nat -> sbmv_batch_copy_failed e b' = false) ->
  sbmv_batch_copy_failed e b = true ->
  (testing_sbmv_batched e argus).1 = HIPBLAS_STATUS_MAPPING_ERROR /\
  trace (testing_sbmv_batched e argus).2
    = EvCreate :: sbmv_device_allocations argus
      ++ EvSrand 1
      :: flat_map (sbmv_batch_setup (M argus) (lda argus) (incx argus) (incy argus)
                     (sbmv_A_size argus) (sbmv_X_size argus) (sbmv_Y_size argus))
           (seq 0 (S b))
      ++ [EvDestroy] /\
  count is_host_alloc (trace (testing_sbmv_batched e argus).2) = (3 * (b + 1))%nat /\
  count is_gpu (trace (testing_sbmv_batched e argus).2) = O.
Proof.
  intros Hacc Halloc HsA HsX HsY Hb Hbefore Hfail. unfold sbmv_last in Halloc.
  assert (sbmv_size_negative argus = false) as Hneg
    by (apply sizes_negative_nonneg; assumption).
  assert ((batch_count argus =? 0) = false) as Hnz by (apply Z.eqb_neq; lia).
  destruct (passes_run_first_failure (sbmv_batch_copy_failed e) (seq 0 b)
              (seq (S b) (Z.to_nat (batch_count argus) - S b)) b) as [Hrun Hex];
    [apply List.Forall_forall; intros b' Hb'; apply in_seq in Hb'; apply Hbefore; lia
    | exact Hfail |].
  rewrite <- seq_split_at in Hrun, Hex by lia.
  assert (seq 0 b ++ [b] = seq 0 (S b)) as Hseq
    by (replace (S b) with (b + 1)%nat by lia; rewrite seq_app; reflexivity).
  rewrite Hseq in Hrun.
  assert (trace (testing_sbmv_batched e argus).2
          = EvCreate :: sbmv_device_allocations argus
            ++ EvSrand 1
            :: flat_map (sbmv_batch_setup (M argus) (lda argus) (incx argus)
                           (incy argus) (sbmv_A_size argus) (sbmv_X_size argus)
                           (sbmv_Y_size argus))
                 (seq 0 (S b))
            ++ [EvDestroy]) as Htr.
  { rewrite sbmv_trace_exact. unfold sbmv_trace, sbmv_init_events.
    rewrite Hacc, Hnz, Halloc, Hneg, Hex, Hrun. reflexivity. }
  split; [|split; [exact Htr|]].
  - rewrite (sbmv_status_eq e argus Hneg). unfold sbmv_status.
    rewrite Hacc, Hnz, Halloc, Hex. reflexivity.
  - rewrite Htr. unfold sbmv_device_allocations.
    split; cbn [count is_host_alloc is_gpu]; count_trace; cbn [count]; lia.
Qed.

Lemma X5_sbmv_first_failing_batch_witness :
  (testing_sbmv_batched batch_1_copy_failure_env three_batch_arguments).1
    = HIPBLAS_STATUS_MAPPING_ERROR /\
  count is_host_alloc
    (trace (testing_sbmv_batched batch_1_copy_failure_env three_batch_arguments).2)
    = 6%nat.
Proof.
  destruct (X5_sbmv_first_failing_batch batch_1_copy_failure_env
              three_batch_arguments 1) as (Hs & _ & Hh & _).
  - reflexivity.
  - reflexivity.
  - vm_compute. discriminate.
  - vm_compute. discriminate.
  - vm_compute. discriminate.
  - simpl. lia.
  - intros b' Hb'. assert (b' = O) as -> by lia. reflexivity.
  - reflexivity.
  - split; [exact Hs | exact Hh].
Defined.

(** ** The GPU call within the lifetime of the handle *)

Lemma run_shape_gpu_bracket (o : outcome) (st : hipblasStatus_t) (tr : list event) :
  run_shape o tr -> EvGpu st ∈ tr ->
  o = st /\
  exists pre mid post,
    tr = pre ++ EvCreate :: mid ++ EvGpu st :: post ++ [EvDestroy] /\
    count is_create (pre ++ mid ++ post) = O /\
    count is_destroy (pre ++ mid ++ post) = O /\
    count is_gpu (pre ++ mid ++ post) = O.
Proof.
  intros Hs Hin.
  destruct Hs as [s _|s pre seg Fp Fs _|s pre seg Fp Fs _|pre seg post Fp Fs Fc
                 |pre Fp|pre seg Fp Fs].
  6:{ exfalso. rewrite elem_of_app, elem_of_cons in Hin.
      destruct Hin as [Hin|[Hin|Hin]]; try discriminate;
        [exact (setup_no_gpu _ _ Fp Hin) | exact (setup_no_gpu _ _ Fs Hin)]. }
  5:{ destruct (setup_no_gpu _ _ Fp Hin). }
  - inversion Hin.
  - exfalso. rewrite elem_of_app, elem_of_cons, elem_of_app, list_elem_of_singleton in Hin.
    destruct Hin as [Hin|[Hin|[Hin|Hin]]]; try discriminate;
      [exact (setup_no_gpu _ _ Fp Hin) | exact (setup_no_gpu _ _ Fs Hin)].
  - assert (s = st) as ->.
    { rewrite elem_of_app, elem_of_cons, elem_of_app, !elem_of_cons in Hin.
      destruct Hin as [Hin|[Hin|[Hin|[Hin|[Hin|Hin]]]]]; try discriminate.
      - destruct (setup_no_gpu _ _ Fp Hin).
      - destruct (setup_no_gpu _ _ Fs Hin).
      - congruence.
      - inversion Hin. }
    split; [reflexivity|]. exists pre, seg, []. split; [reflexivity|].
    rewrite app_nil_r, !count_app.
    rewrite !(count_setup _ pre), !(count_setup _ seg);
      try assumption; try (repeat split; reflexivity);
      intros ev Hev; apply (setup_not_handle ev Hev).
  - assert (st = HIPBLAS_STATUS_SUCCESS) as ->.
    { rewrite elem_of_app, elem_of_cons, elem_of_app, elem_of_cons, elem_of_app,
        list_elem_of_singleton in Hin.
      destruct Hin as [Hin|[Hin|[Hin|[Hin|[Hin|Hin]]]]]; try discriminate.
      - destruct (setup_no_gpu _ _ Fp Hin).
      - destruct (setup_no_gpu _ _ Fs Hin).
      - congruence.
      - destruct (check_no_gpu _ _ Fc Hin). }
    split; [reflexivity|]. exists pre, seg, post. split; [reflexivity|].
    rewrite !count_app.
    rewrite !(count_setup _ pre), !(count_setup _ seg), !(count_check _ post);
      try assumption; try (repeat split; reflexivity);
      intros ev Hev;
      first [apply (setup_not_handle ev Hev) | apply (check_not_handle ev Hev)].
Qed.

(** X6: whenever testing_her2k or testing_sbmv_batched calls the GPU
    routine, it calls it once, after the single hipblasCreate and before
    the single hipblasDestroy, which is the last call of the run, and the
    status the routine returns is the status the GPU routine returned, on
    success as on failure. *)
Theorem X6_gpu_call_within_handle_lifetime `{Externals}
    (e : env) (argus : Arguments) (st : hipblasStatus_t) :
  forall r, (r = testing_her2k e argus \/ r = testing_sbmv_batched e argus) ->
  EvGpu st ∈ trace r.2 ->
  r.1 = st /\
  exists pre mid post,
    trace r.2 = pre ++ EvCreate :: mid ++ EvGpu st :: post ++ [EvDestroy] /\
    count is_create (pre ++ mid ++ post) = O /\
    count is_destroy (pre ++ mid ++ post) = O /\
    count is_gpu (pre ++ mid ++ post) = O.
Proof.
  intros r [-> | ->] Hin.
  - exact (run_shape_gpu_bracket _ _ _ (her2k_run_shape e argus) Hin).
  - exact (run_shape_gpu_bracket _ _ _ (sbmv_run_shape e argus) Hin).
Qed.

Lemma X6_gpu_call_within_handle_lifetime_witness :
  (testing_her2k sample_env sample_arguments).1 = HIPBLAS_STATUS_SUCCESS.
Proof.
  destruct (X6_gpu_call_within_handle_lifetime sample_env sample_arguments
              HIPBLAS_STATUS_SUCCESS _ (or_introl eq_refl)) as [Hs _].
  - vm_compute. do 15 apply list_elem_of_further. apply list_elem_of_here.
  - exact Hs.
Defined.

(** ** What a successful run did *)

(** A run of testing_sbmv_batched with batch_count other than 0 that
    returns success passed every test on its way. *)
Lemma sbmv_success_inv `{Externals} (e : env) (argus : Arguments) :
  (testing_sbmv_batched e argus).1 = HIPBLAS_STATUS_SUCCESS ->
  batch_count argus <> 0 ->
  sbmv_accepted argus /\
  sbmv_alloc_failed e (Z.to_nat (int_sub (batch_count argus) 1))
    (sbmv_A_size argus) (sbmv_X_size argus) (sbmv_Y_size argus) = false /\
  sbmv_size_negative argus = false /\
  existsb (sbmv_batch_copy_failed e) (seq 0 (Z.to_nat (batch_count argus))) = false /\
  sbmv_pointer_copy_failed e = false /\
  gpu_status e = HIPBLAS_STATUS_SUCCESS.
Proof.
  rewrite sbmv_outcome_eq. unfold sbmv_outcome, sbmv_status, sbmv_accepted. intros Hs Hb.
  apply Z.eqb_neq in Hb. rewrite Hb in Hs.
  destruct (sbmv_batched_invalid _ _ _ _ _ _); [discriminate|].
  destruct (sbmv_alloc_failed _ _ _ _ _); [discriminate|].
  destruct (sbmv_size_negative argus); [discriminate|].
  destruct (existsb _ _); [discriminate|].
  destruct (sbmv_pointer_copy_failed e); [discriminate|].
  repeat split. congruence.
Qed.

(** X7: a run of testing_sbmv_batched with batch_count other than 0 that
    returns success has allocated three host vectors and made one copy
    back per batch and called the GPU routine once; it has called the CPU
    reference routine once per batch and the unit check once when
    unit_check is set, and neither of them when unit_check is 0. *)
Theorem X7_sbmv_successful_run_counts `{Externals} (e : env) (argus : Arguments) :
  (testing_sbmv_batched e argus).1 = HIPBLAS_STATUS_SUCCESS ->
  batch_count argus <> 0 ->
  let tr := trace (testing_sbmv_batched e argus).2 in
  let n := Z.to_nat (batch_count argus) in
  count is_host_alloc tr = (3 * n)%nat /\
  count is_gpu tr = 1%nat /\
  count is_d2h tr = n /\
  count is_cblas tr = (if truthy (unit_check argus) then n else O) /\
  count is_unit_check tr = (if truthy (unit_check argus) then 1%nat else O).
Proof.
  intros Hs Hb tr n.
  destruct (sbmv_success_inv e argus Hs Hb) as (Hacc & Halloc & Hneg & Hex & Hptr & Hgpu).
  apply Z.eqb_neq in Hb.
  assert (tr = EvCreate :: sbmv_device_allocations argus
               ++ EvSrand 1
               :: flat_map (sbmv_batch_setup (M argus) (lda argus) (incx argus)
                              (incy argus) (sbmv_A_size argus) (sbmv_X_size argus)
                              (sbmv_Y_size argus)) (seq 0 n)
               ++ sbmv_pointer_copies argus
               ++ EvGpu HIPBLAS_STATUS_SUCCESS :: sbmv_check argus ++ [EvDestroy]) as ->.
  { unfold tr. rewrite sbmv_trace_exact. unfold sbmv_trace, sbmv_init_events.
    rewrite Hacc, Hb, Halloc, Hneg, Hex, Hptr, Hgpu, (passes_run_no_failure _ _ Hex).
    reflexivity. }
  unfold sbmv_device_allocations, sbmv_pointer_copies, sbmv_check, sbmv_copy_back_events.
  fold n.
  destruct (truthy (unit_check argus));
    repeat split; cbn [count is_host_alloc is_gpu is_d2h is_cblas is_unit_check];
    count_trace; cbn [count]; lia.
Qed.

Lemma X7_sbmv_successful_run_counts_witness :
  count is_cblas (trace (testing_sbmv_batched sample_env sample_arguments).2) = 2%nat /\
  count is_unit_check (trace (testing_sbmv_batched sample_env sample_arguments).2)
    = 1%nat.
Proof.
  destruct (X7_sbmv_successful_run_counts sample_env sample_arguments)
    as (_ & _ & _ & Hc & Hu).
  - reflexivity.
  - simpl. lia.
  - split; [exact Hc | exact Hu].
Defined.

(** X8: on input its sanity check accepts, when the products lda * K1 and
    ldc * N are [int]s, testing_her2k allocates seven
    buffers and calls the GPU routine once; when the GPU routine succeeds
    it makes one copy back and calls the CPU reference routine and the unit
    check once each if unit_check is set, and neither of them if unit_check
    is 0; when the GPU routine fails it makes no copy back and calls
    neither.  It reads the timer once if timing is set and not at all
    otherwise. *)
Theorem X8_her2k_accepted_run_counts `{Externals} (e : env) (argus : Arguments) :
  her2k_accepted argus ->
  int_range (lda argus * her2k_K1 (N argus) (K argus)
                           (char2hipblas_operation (transA_option argus))) ->
  int_range (ldc argus * N argus) ->
  let tr := trace (testing_her2k e argus).2 in
  let ok := bool_decide (gpu_status e = HIPBLAS_STATUS_SUCCESS) in
  count is_alloc tr = 7%nat /\
  count is_gpu tr = 1%nat /\
  count is_d2h tr = (if ok then 1%nat else O) /\
  count is_cblas tr = (if ok && truthy (unit_check argus) then 1%nat else O) /\
  count is_unit_check tr = (if ok && truthy (unit_check argus) then 1%nat else O) /\
  count (fun ev => match ev with EvGetTime => true | _ => false end) tr
    = (if truthy (timing argus) then 1%nat else O).
Proof.
  intros Hacc HrA HrC tr ok. unfold tr, ok.
  destruct (her2k_accepted_run e argus Hacc (her2k_sizes_nonnegative argus Hacc HrA HrC))
    as [_ ->].
  unfold her2k_allocations, her2k_setup, her2k_check.
  destruct (decide (gpu_status e = HIPBLAS_STATUS_SUCCESS)) as [Hg|Hg].
  - rewrite (bool_decide_eq_true_2 _ Hg).
    rewrite (bool_decide_eq_false_2 (gpu_status e <> HIPBLAS_STATUS_SUCCESS)) by tauto.
    destruct (truthy (timing argus)), (truthy (unit_check argus)); repeat split.
  - rewrite (bool_decide_eq_false_2 _ Hg), (bool_decide_eq_true_2 _ Hg).
    destruct (truthy (timing argus)), (truthy (unit_check argus)); repeat split.
Qed.

Lemma X8_her2k_accepted_run_counts_witness :
  count is_alloc (trace (testing_her2k gpu_failure_env sample_arguments).2) = 7%nat /\
  count is_d2h (trace (testing_her2k gpu_failure_env sample_arguments).2) = O.
Proof.
  destruct (X8_her2k_accepted_run_counts gpu_failure_env sample_arguments)
    as (Ha & _ & Hd & _).
  - reflexivity.
  - vm_compute. split; discriminate.
  - vm_compute. split; discriminate.
  - split; [exact Ha | exact Hd].
Defined.

(** ** The host vectors after a successful run *)

(** X9: after a run of testing_her2k on accepted input, with products
    lda * K1 and ldc * N that are [int]s, whose GPU routine
    succeeded, hA and hB hold the matrices as initialised, hC2 holds what
    the copy back delivered, and hC holds the output of the CPU reference
    routine on the initial hA, hB and hC when unit_check is set, and the
    initial hC otherwise.  The GPU call and the copy back change none of
    the inputs of the CPU routine, and the initial matrices are a function
    of the arguments alone: they do not depend on the generator state on
    entry. *)
Theorem X9_her2k_host_vectors_after_success `{Externals} (e : env) (argus : Arguments) :
  her2k_accepted argus ->
  int_range (lda argus * her2k_K1 (N argus) (K argus)
                           (char2hipblas_operation (transA_option argus))) ->
  int_range (ldc argus * N argus) ->
  gpu_status e = HIPBLAS_STATUS_SUCCESS ->
  let final := (testing_her2k e argus).2 in
  host final hA = (her2k_init_A argus).1 /\
  host final hB = (her2k_init_B argus).1 /\
  host final hC2 = d2h_data e hC2 /\
  host final hC = (if truthy (unit_check argus) then her2k_reference argus
                   else (her2k_init_C argus).1).
Proof.
  intros Hacc HrA HrC Hg.
  pose proof (her2k_sizes_nonnegative argus Hacc HrA HrC) as Hneg.
  unfold her2k_size_negative, her2k_A_size, her2k_C_size in Hneg.
  apply orb_false_elim in Hneg. destruct Hneg as [HA HC].
  unfold her2k_accepted in Hacc. cbv zeta.
  unfold testing_her2k, testing_her2k_body, her2k_reference, her2k_init_C,
    her2k_init_B, her2k_init_A, her2k_A_size, her2k_B_size, her2k_C_size.
  rewrite Hacc. cbv zeta. unfold host_vector. rewrite HA, HC.
  unfold_prog. rewrite Hg.
  rewrite (bool_decide_eq_false_2 (HIPBLAS_STATUS_SUCCESS <> HIPBLAS_STATUS_SUCCESS))
    by tauto.
  destruct (truthy (timing argus)), (truthy (unit_check argus)); unfold_prog;
    repeat first [rewrite fn_lookup_insert | rewrite fn_lookup_insert_ne by discriminate];
    repeat split.
Qed.

Lemma X9_her2k_host_vectors_after_success_witness :
  host (testing_her2k sample_env sample_arguments).2 hA
    = (her2k_init_A sample_arguments).1 /\
  host (testing_her2k sample_env sample_arguments).2 hC
    = her2k_reference sample_arguments.
Proof.
  destruct (X9_her2k_host_vectors_after_success sample_env sample_arguments)
    as (HA & _ & _ & HC).
  - reflexivity.
  - vm_compute. split; discriminate.
  - vm_compute. split; discriminate.
  - reflexivity.
  - split; [exact HA | exact HC].
Defined.

Section SbmvLaterLoops.
Context `{Externals}.

Lemma for_each_cons_next (body : nat -> prog unit) (b : nat) (bs : list nat)
    (w w1 : world) :
  body b w = (Next tt, w1) -> for_each (b :: bs) body w = for_each bs body w1.
Proof. intros E. cbn [for_each]. unfold mbind, prog_bind. rewrite E. reflexivity. Qed.

(** One pass of the copy-back loop writes hres_array[b]. *)
Lemma sbmv_copy_back_pass (e : env) (Y_size : Z) (b : nat) (w : world) :
  exists w1,
    (hipMemcpy e (Host (hres_array b)) (Device (by_array b))
       (size_mul sizeof_T Y_size) hipMemcpyDeviceToHost ;; mret tt) w = (Next tt, w1) /\
    host w1 = <[hres_array b := d2h_data e (hres_array b)]> (host w).
Proof. unfold_prog. eexists. split; reflexivity. Qed.

Lemma copy_back_passes_host (e : env) (Y_size : Z) (bs : list nat) (w : world) :
  let w' := (for_each bs (fun b =>
               hipMemcpy e (Host (hres_array b)) (Device (by_array b))
                 (size_mul sizeof_T Y_size) hipMemcpyDeviceToHost ;; mret tt) w).2 in
  (forall h, (forall b, h <> hres_array b) -> host w' h = host w h) /\
  (forall b, In b bs \/ host w (hres_array b) = d2h_data e (hres_array b) ->
             host w' (hres_array b) = d2h_data e (hres_array b)).
Proof.
  revert w. induction bs as [|b0 bs IH]; intros w; cbv zeta.
  - cbn [for_each]. split; [reflexivity|]. intros b [[]|Hb]. exact Hb.
  - destruct (sbmv_copy_back_pass e Y_size b0 w) as (w1 & E1 & H1).
    rewrite (for_each_cons_next _ _ _ _ _ E1).
    destruct (IH w1) as [Hframe Hset]. split.
    + intros h Hh. rewrite (Hframe h Hh), H1.
      apply fn_lookup_insert_ne. apply not_eq_sym, Hh.
    + intros b Hb. apply Hset.
      destruct (decide (b0 = b)) as [->|Hne].
      * right. rewrite H1. apply fn_lookup_insert.
      * destruct Hb as [[Hb|Hb]|Hb]; [contradiction|left; exact Hb|right].
        rewrite H1, fn_lookup_insert_ne by congruence. exact Hb.
Qed.

(** One pass of the CPU loop writes hy_array[b], from the vectors of
    batch [b]. *)
Lemma sbmv_cblas_pass (uplo : hipblasFillMode_t) (M K : Z) (alpha : T)
    (lda incx : Z) (beta : T) (incy : Z) (b : nat) (w : world) :
  exists w1,
    (vA ← get_host (hA_array b) ;
     vx ← get_host (hx_array b) ;
     vy ← get_host (hy_array b) ;
     emit EvCblas ;;
     set_host (hy_array b)
       (cblas_sbmv_result uplo M K alpha vA lda vx incx beta vy incy)) w
    = (Next tt, w1) /\
    host w1 = <[hy_array b :=
                  cblas_sbmv_result uplo M K alpha (host w (hA_array b)) lda
                    (host w (hx_array b)) incx beta (host w (hy_array b)) incy]>
                (host w).
Proof. unfold_prog. eexists. split; reflexivity. Qed.

Lemma cblas_passes_host (uplo : hipblasFillMode_t) (M K : Z) (alpha : T)
    (lda incx : Z) (beta : T) (incy : Z) (bs : list nat) (w : world) :
  NoDup bs ->
  let w' := (for_each bs (fun b =>
               vA ← get_host (hA_array b) ;
               vx ← get_host (hx_array b) ;
               vy ← get_host (hy_array b) ;
               emit EvCblas ;;
               set_host (hy_array b)
                 (cblas_sbmv_result uplo M K alpha vA lda vx incx beta vy incy)) w).2 in
  (forall h, (forall b, In b bs -> h <> hy_array b) -> host w' h = host w h) /\
  (forall b, In b bs ->
             host w' (hy_array b)
             = cblas_sbmv_result uplo M K alpha (host w (hA_array b)) lda
                 (host w (hx_array b)) incx beta (host w (hy_array b)) incy).
Proof.
  intros Hnd. revert w. induction Hnd as [|b0 bs Hnotin Hnd IH]; intros w; cbv zeta.
  - cbn [for_each]. split; [reflexivity|]. intros b [].
  - destruct (sbmv_cblas_pass uplo M K alpha lda incx beta incy b0 w) as (w1 & E1 & H1).
    rewrite (for_each_cons_next _ _ _ _ _ E1).
    destruct (IH w1) as [Hframe Hset]. split.
    + intros h Hh. rewrite Hframe by (intros b Hb; apply Hh; right; exact Hb).
      rewrite H1. apply fn_lookup_insert_ne. apply not_eq_sym, Hh. left. reflexivity.
    + intros b [<-|Hb].
      * rewrite Hframe.
        -- rewrite H1. apply fn_lookup_insert.
        -- intros b Hb Heq. injection Heq as ->. apply Hnotin.
           apply list_elem_of_In. exact Hb.
      * rewrite (Hset b Hb), H1.
        assert (b0 <> b) as Hne
          by (intros ->; apply Hnotin; apply list_elem_of_In; exact Hb).
        rewrite !fn_lookup_insert_ne by congruence. reflexivity.
Qed.
End SbmvLaterLoops.

(** X10: after a run of testing_sbmv_batched that returns success, for
    every batch b below batch_count, hA_array[b] and hx_array[b] hold the
    vectors as initialised, hres_array[b] holds what the copy back
    delivered, and hy_array[b] holds the output of the CPU reference
    routine on the initial hA_array[b], hx_array[b] and hy_array[b] when
    unit_check is set, and the initial hy_array[b] otherwise. *)
Theorem X10_sbmv_host_vectors_after_success `{Externals}
    (e : env) (argus : Arguments) (b : nat) :
  (testing_sbmv_batched e argus).1 = HIPBLAS_STATUS_SUCCESS ->
  Z.of_nat b < batch_count argus ->
  let final := (testing_sbmv_batched e argus).2 in
  host final (hA_array b) = sbmv_initial_A argus /\
  host final (hx_array b) = sbmv_initial_x argus /\
  host final (hres_array b) = d2h_data e (hres_array b) /\
  host final (hy_array b) = (if truthy (unit_check argus) then sbmv_reference argus
                             else sbmv_initial_y argus).
Proof.
  intros Hs Hb.
  assert (batch_count argus <> 0) as Hnz by lia.
  destruct (sbmv_success_inv e argus Hs Hnz)
    as (Hacc & Halloc & Hneg & Hex & Hptr & Hgpu).
  unfold sbmv_size_negative in Hneg.
  assert (In b (seq 0 (Z.to_nat (batch_count argus)))) as Hin by (apply in_seq; lia).
  apply Z.eqb_neq in Hnz.
  unfold sbmv_accepted, sbmv_A_size, sbmv_X_size, sbmv_Y_size in *.
  unfold sbmv_pointer_copy_failed in Hptr.
  cbv zeta. unfold sbmv_reference, sbmv_initial_A, sbmv_initial_x, sbmv_initial_y,
    sbmv_A_size, sbmv_X_size, sbmv_Y_size.
  unfold testing_sbmv_batched, testing_sbmv_batched_body.
  rewrite Hacc, Hnz. unfold_prog. rewrite !device_batch_vector_run. unfold_prog.
  rewrite Halloc. unfold_prog.
  match goal with
  | |- context [sbmv_init_loop ?e0 ?a ?b ?c ?d ?f ?g ?h ?n ?w] =>
      destruct (sbmv_init_loop_exact e0 a b c d f g h n w Hneg) as (w1 & E1 & _);
      pose proof (sbmv_init_passes_all e0 a b c d f g h Hneg (seq 0 (Z.to_nat n)) w)
        as Hinit;
      rewrite Hex in E1; rewrite E1; unfold sbmv_init_loop in E1; rewrite E1 in Hinit;
      specialize (Hinit eq_refl _ Hin); cbn [snd] in Hinit;
      destruct Hinit as (HA1 & Hx1 & Hy1)
  end.
  unfold_prog. rewrite Hptr. unfold_prog. rewrite Hgpu.
  rewrite (bool_decide_eq_false_2 (HIPBLAS_STATUS_SUCCESS <> HIPBLAS_STATUS_SUCCESS))
    by tauto.
  unfold_prog.
  match goal with
  | |- context [sbmv_copy_back ?e0 ?y ?n ?w] =>
      destruct (sbmv_copy_back_run e0 y n w) as (w2 & E2 & _);
      pose proof (copy_back_passes_host e0 y (seq 0 (Z.to_nat n)) w) as Hcb;
      rewrite E2; unfold sbmv_copy_back in E2; cbv zeta in Hcb; rewrite E2 in Hcb;
      cbn [snd host] in Hcb; destruct Hcb as [Hframe2 Hset2]
  end.
  unfold_prog.
  assert (host w2 (hA_array b)
          = (sbmv_init_A (M argus) (lda argus) (int_mul (lda argus) (M argus))).1) as HA2
    by (rewrite Hframe2 by discriminate; exact HA1).
  assert (host w2 (hx_array b)
          = (sbmv_init_x (M argus) (lda argus) (incx argus)
               (int_mul (lda argus) (M argus)) (int_mul (M argus) (incx argus))).1) as Hx2
    by (rewrite Hframe2 by discriminate; exact Hx1).
  assert (host w2 (hy_array b)
          = (sbmv_init_y (M argus) (lda argus) (incx argus) (incy argus)
               (int_mul (lda argus) (M argus)) (int_mul (M argus) (incx argus))
               (int_mul (M argus) (incy argus))).1) as Hy2
    by (rewrite Hframe2 by discriminate; exact Hy1).
  pose proof (Hset2 b (or_introl Hin)) as Hres2.
  destruct (truthy (unit_check argus)); unfold_prog.
  - match goal with
    | |- context [sbmv_cblas_loop ?u ?m ?k ?al ?ld ?ix ?be ?iy ?n ?w] =>
        destruct (sbmv_cblas_loop_run u m k al ld ix be iy n w) as (w3 & E3 & _);
        pose proof (cblas_passes_host u m k al ld ix be iy (seq 0 (Z.to_nat n)) w
                      (NoDup_seq _ _)) as Hcl;
        rewrite E3; unfold sbmv_cblas_loop in E3; cbv zeta in Hcl; rewrite E3 in Hcl;
        cbn [snd] in Hcl; destruct Hcl as [Hframe3 Hset3]
    end.
    unfold_prog.
    split; [|split; [|split]].
    + refine (eq_trans (Hframe3 _ _) HA2). intros; discriminate.
    + refine (eq_trans (Hframe3 _ _) Hx2). intros; discriminate.
    + refine (eq_trans (Hframe3 _ _) Hres2). intros; discriminate.
    + refine (eq_trans (Hset3 b Hin) _). rewrite HA2, Hx2, Hy2. reflexivity.
  - split; [exact HA2|split; [exact Hx2|split; [exact Hres2|exact Hy2]]].
Qed.

Lemma X10_sbmv_host_vectors_after_success_witness :
  host (testing_sbmv_batched sample_env sample_arguments).2 (hy_array 1)
    = sbmv_reference sample_arguments /\
  host (testing_sbmv_batched sample_env sample_arguments).2 (hres_array 1)
    = d2h_data sample_env (hres_array 1).
Proof.
  destruct (X10_sbmv_host_vectors_after_success sample_env sample_arguments 1)
    as (_ & _ & Hr & Hy).
  - reflexivity.
  - simpl. lia.
  - split; [exact Hy | exact Hr].
Defined.

(** ** Buffer sizes on accepted input *)

(** X11: on input the sanity check of testing_her2k accepts, when the
    products lda * K1 and ldc * N are [int]s, no size is negative, the A
    buffers have room for the N x K (transA = N) or K x N (otherwise)
    elements of A and the C buffers for the N x N elements of C.  B_size is
    computed from lda and always equals A_size. *)
Theorem X11_her2k_sizes_on_accepted_input `{Externals} (argus : Arguments) :
  let transA := char2hipblas_operation (transA_option argus) in
  her2k_accepted argus ->
  int_range (lda argus * her2k_K1 (N argus) (K argus) transA) ->
  int_range (ldc argus * N argus) ->
  0 <= her2k_A_size argus /\
  her2k_B_size argus = her2k_A_size argus /\
  N argus * K argus <= her2k_A_size argus /\
  0 <= N argus * N argus <= her2k_C_size argus.
Proof.
  intros transA Hacc HrA HrC.
  unfold her2k_accepted, her2k_invalid in Hacc. fold transA in Hacc.
  unfold her2k_A_size, her2k_B_size, her2k_C_size. fold transA.
  rewrite (int_mul_exact _ _ HrA), (int_mul_exact _ _ HrC).
  repeat (apply orb_false_elim in Hacc; destruct Hacc as [Hacc ?]).
  repeat match goal with
         | Hc : (_ <? _) = false |- _ => apply Z.ltb_ge in Hc
         end.
  unfold her2k_K1 in *.
  destruct (decide (transA = HIPBLAS_OP_N)) as [Ht|Ht].
  - rewrite (bool_decide_eq_true_2 _ Ht) in *.
    match goal with
    | Hc : true && _ = false |- _ =>
        cbn [andb] in Hc; apply orb_false_elim in Hc; destruct Hc as [Ha Hb];
        apply Z.ltb_ge in Ha, Hb
    end.
    repeat split; try reflexivity; nia.
  - rewrite (bool_decide_eq_false_2 _ Ht) in *.
    rewrite (bool_decide_eq_true_2 (transA <> HIPBLAS_OP_N) Ht) in *.
    match goal with
    | Hc : true && _ = false |- _ =>
        cbn [andb] in Hc; apply orb_false_elim in Hc; destruct Hc as [Ha Hb];
        apply Z.ltb_ge in Ha, Hb
    end.
    repeat split; try reflexivity; nia.
Qed.

Lemma X11_her2k_sizes_on_accepted_input_witness :
  0 <= her2k_A_size sample_arguments /\
  her2k_B_size sample_arguments = her2k_A_size sample_arguments.
Proof.
  destruct (X11_her2k_sizes_on_accepted_input sample_arguments) as (Ha & Hb & _).
  - reflexivity.
  - vm_compute. split; discriminate.
  - vm_compute. split; discriminate.
  - split; [exact Ha | exact Hb].
Defined.

(** X12: on input the sanity check of testing_sbmv_batched accepts, with K
    below INT_MAX and products that are [int]s, A_size is not negative,
    X_size is negative exactly when M is positive and incx negative,
    Y_size exactly when M is positive and incy negative, and the three
    sizes are 0 when M is 0. *)
Theorem X12_sbmv_sizes_on_accepted_input `{Externals} (argus : Arguments) :
  sbmv_accepted argus ->
  K argus < int_max ->
  int_range (lda argus * M argus) ->
  int_range (M argus * incx argus) ->
  int_range (M argus * incy argus) ->
  0 <= sbmv_A_size argus /\
  (sbmv_X_size argus < 0 <-> 0 < M argus /\ incx argus < 0) /\
  (sbmv_Y_size argus < 0 <-> 0 < M argus /\ incy argus < 0) /\
  (M argus = 0 ->
   sbmv_A_size argus = 0 /\ sbmv_X_size argus = 0 /\ sbmv_Y_size argus = 0).
Proof.
  unfold sbmv_accepted, sbmv_batched_invalid, sbmv_A_size, sbmv_X_size, sbmv_Y_size.
  intros Hacc HK HrA Hrx Hry.
  repeat (apply orb_false_elim in Hacc; destruct Hacc as [Hacc ?]).
  repeat match goal with
         | Hc : (_ <? _) = false |- _ => apply Z.ltb_ge in Hc
         | Hc : (_ =? _) = false |- _ => apply Z.eqb_neq in Hc
         end.
  rewrite int_add_succ_exact in * by lia.
  rewrite !int_mul_exact by assumption.
  repeat split; try nia.
Qed.

Lemma X12_sbmv_sizes_on_accepted_input_witness :
  sbmv_X_size negative_incx_arguments < 0 <->
  0 < M negative_incx_arguments /\ incx negative_incx_arguments < 0.
Proof.
  destruct (X12_sbmv_sizes_on_accepted_input negative_incx_arguments)
    as (_ & Hx & _).
  - reflexivity.
  - vm_compute. reflexivity.
  - vm_compute. split; discriminate.
  - vm_compute. split; discriminate.
  - vm_compute. split; discriminate.
  - exact Hx.
Defined.

(** X13: with M = 0 the three sizes are 0 and the allocation test of
    testing_sbmv_batched ignores the per-batch buffers: on accepted input
    with batch_count other than 0 and the three device arrays of pointers
    not null, the routine does not take the allocation-failed return even
    when every per-batch buffer is null; it returns the mapping error if a
    copy fails and the status of the GPU routine otherwise. *)
Theorem X13_sbmv_zero_M_tolerates_null_buffers `{Externals}
    (e : env) (argus : Arguments) :
  M argus = 0 ->
  sbmv_accepted argus ->
  batch_count argus <> 0 ->
  device_null e dA_array = false ->
  device_null e dx_array = false ->
  device_null e dy_array = false ->
  (testing_sbmv_batched e argus).1 =
    (if existsb (sbmv_batch_copy_failed e) (seq 0 (Z.to_nat (batch_count argus)))
        || sbmv_pointer_copy_failed e
     then HIPBLAS_STATUS_MAPPING_ERROR else gpu_status e) /\
  EvSrand 1 ∈ trace (testing_sbmv_batched e argus).2.
Proof.
  intros HM Hacc Hb HA Hx Hy.
  assert (sbmv_alloc_failed e (Z.to_nat (int_sub (batch_count argus) 1))
            (sbmv_A_size argus) (sbmv_X_size argus) (sbmv_Y_size argus) = false) as Halloc.
  { unfold sbmv_alloc_failed, sbmv_A_size, sbmv_X_size, sbmv_Y_size, int_mul, truthy.
    rewrite HM, HA, Hx, Hy, Z.mul_0_r, !Z.mul_0_l. cbn.
    rewrite !andb_false_r. reflexivity. }
  assert (sbmv_size_negative argus = false) as Hneg.
  { unfold sbmv_size_negative, sbmv_A_size, sbmv_X_size, sbmv_Y_size, int_mul.
    rewrite HM, Z.mul_0_r, !Z.mul_0_l. reflexivity. }
  apply Z.eqb_neq in Hb. split.
  - rewrite (sbmv_status_eq e argus Hneg). unfold sbmv_status. rewrite Hacc, Hb, Halloc.
    destruct (existsb _ _), (sbmv_pointer_copy_failed e); reflexivity.
  - rewrite sbmv_trace_exact. unfold sbmv_trace. rewrite Hacc, Hb, Halloc, Hneg.
    apply list_elem_of_further, elem_of_app. right. apply list_elem_of_here.
Qed.

Lemma X13_sbmv_zero_M_tolerates_null_buffers_witness :
  (testing_sbmv_batched null_batch_buffers_env zero_M_arguments).1
    = HIPBLAS_STATUS_SUCCESS.
Proof.
  destruct (X13_sbmv_zero_M_tolerates_null_buffers null_batch_buffers_env
              zero_M_arguments) as [Hs _].
  - reflexivity.
  - reflexivity.
  - simpl. lia.
  - reflexivity.
  - reflexivity.
  - reflexivity.
  - exact Hs.
Defined.

(** ** The cells the initialisation writes *)

(** X14: on input the sanity check of testing_her2k accepts, when the
    products lda * K1 and ldc * N are [int]s, every cell the initialisation
    of hC writes lies within the C_size elements of hC; with transA = N
    every cell the initialisation of hA writes lies within the A_size
    elements of hA, and every cell the initialisation of hB writes lies
    within the B_size elements of hB provided ldb <= lda. *)
Theorem X14_her2k_initialisation_within_allocation `{Externals}
    (argus : Arguments) (idx : Z) :
  let transA := char2hipblas_operation (transA_option argus) in
  let K1 := her2k_K1 (N argus) (K argus) transA in
  her2k_accepted argus ->
  int_range (lda argus * K1) ->
  int_range (ldc argus * N argus) ->
  (In idx (hipblas_init_indices (N argus) (N argus) (ldc argus)) ->
   0 <= idx < her2k_C_size argus) /\
  (transA = HIPBLAS_OP_N ->
   In idx (hipblas_init_indices (N argus) K1 (lda argus)) ->
   0 <= idx < her2k_A_size argus) /\
  (transA = HIPBLAS_OP_N -> ldb argus <= lda argus ->
   In idx (hipblas_init_indices (N argus) K1 (ldb argus)) ->
   0 <= idx < her2k_B_size argus).
Proof.
  intros transA K1 Hacc HrA HrC.
  unfold her2k_accepted, her2k_invalid in Hacc. fold transA in Hacc.
  unfold her2k_A_size, her2k_B_size, her2k_C_size. fold transA. fold K1.
  rewrite (int_mul_exact _ _ HrA), (int_mul_exact _ _ HrC).
  repeat (apply orb_false_elim in Hacc; destruct Hacc as [Hacc ?]).
  repeat match goal with
         | Hc : (_ <? _) = false |- _ => apply Z.ltb_ge in Hc
         end.
  split; [|split].
  - intros Hin. apply (hipblas_init_indices_in_bounds (N argus)); assumption.
  - intros Ht Hin. rewrite (bool_decide_eq_true_2 _ Ht) in *.
    match goal with
    | Hc : true && _ = false |- _ =>
        cbn [andb] in Hc; apply orb_false_elim in Hc; destruct Hc as [Ha Hb];
        apply Z.ltb_ge in Ha, Hb
    end.
    apply (hipblas_init_indices_in_bounds (N argus)); assumption.
  - intros Ht Hle Hin. rewrite (bool_decide_eq_true_2 _ Ht) in *.
    match goal with
    | Hc : true && _ = false |- _ =>
        cbn [andb] in Hc; apply orb_false_elim in Hc; destruct Hc as [Ha Hb];
        apply Z.ltb_ge in Ha, Hb
    end.
    assert (0 <= K1) as HK1 by (subst K1; unfold her2k_K1;
                                rewrite (bool_decide_eq_true_2 _ Ht); lia).
    assert (int_range (ldb argus * K1)) as HrB
      by (unfold int_range, int_min, int_max in *; nia).
    pose proof (hipblas_init_indices_in_bounds (N argus) K1 (ldb argus) idx Hb HrB Hin).
    nia.
Qed.

Lemma X14_her2k_initialisation_within_allocation_witness :
  In 4 (hipblas_init_indices 2 2 3) /\ 0 <= 4 < her2k_A_size sample_arguments.
Proof.
  assert (In 4 (hipblas_init_indices 2 2 3)) as Hin
    by (right; right; right; left; reflexivity).
  split; [exact Hin|].
  destruct (X14_her2k_initialisation_within_allocation sample_arguments 4)
    as (_ & HA & _).
  - reflexivity.
  - vm_compute. split; discriminate.
  - vm_compute. split; discriminate.
  - apply HA; [reflexivity | exact Hin].
Defined.

(** ** The place of hipblasCreate in a run *)

(** X15: testing_sbmv_batched creates the handle before it allocates
    anything: in every run that gets past the sanity check and the test of
    batch_count, hipblasCreate is the first call.  testing_her2k allocates
    its seven buffers first: on accepted input, when the products lda * K1
    and ldc * N are [int]s, hipblasCreate is the eighth call, and no buffer
    is allocated after it. *)
Theorem X15_place_of_handle_creation `{Externals} (e : env) (argus : Arguments) :
  (sbmv_accepted argus -> batch_count argus <> 0 ->
   exists rest, trace (testing_sbmv_batched e argus).2 = EvCreate :: rest) /\
  (her2k_accepted argus ->
   int_range (lda argus * her2k_K1 (N argus) (K argus)
                            (char2hipblas_operation (transA_option argus))) ->
   int_range (ldc argus * N argus) ->
   exists rest,
     trace (testing_her2k e argus).2 = her2k_allocations argus ++ EvCreate :: rest /\
     count is_alloc (her2k_allocations argus) = 7%nat /\
     count is_alloc rest = O).
Proof.
  split.
  - intros Hacc Hb. apply Z.eqb_neq in Hb.
    rewrite sbmv_trace_exact. unfold sbmv_trace. rewrite Hacc, Hb.
    eexists. reflexivity.
  - intros Hacc HrA HrC.
    destruct (her2k_accepted_run e argus Hacc
                (her2k_sizes_nonnegative argus Hacc HrA HrC)) as [_ ->].
    eexists. split; [reflexivity|]. split; [reflexivity|].
    unfold her2k_setup, her2k_check.
    destruct (truthy (timing argus)), (truthy (unit_check argus));
      case_bool_decide; reflexivity.
Qed.

Lemma X15_place_of_handle_creation_witness :
  (exists rest,
     trace (testing_sbmv_batched sample_env sample_arguments).2 = EvCreate :: rest) /\
  (exists rest,
     trace (testing_her2k sample_env sample_arguments).2
     = her2k_allocations sample_arguments ++ EvCreate :: rest /\
     count is_alloc (her2k_allocations sample_arguments) = 7%nat /\
     count is_alloc rest = O).
Proof.
  destruct (X15_place_of_handle_creation sample_env sample_arguments) as [Hs Hh].
  split.
  - apply Hs.
    + reflexivity.
    + simpl. lia.
  - apply Hh.
    + reflexivity.
    + vm_compute. split; discriminate.
    + vm_compute. split; discriminate.
Defined.

(** ** Runs that fault *)

(** X16: the outcome of testing_her2k is the invalid-value status when
    the sanity check fails, a fault when A_size or C_size is negative, and
    the status of hipblasHer2k otherwise.  A run that faults stops at the
    first host vector with a negative size, hA or hC: all it has done is
    allocate host vectors; it has allocated no device buffer, created no
    handle and called neither the GPU routine nor hipblasDestroy. *)
Theorem X16_her2k_outcome_and_fault `{Externals} (e : env) (argus : Arguments) :
  (testing_her2k e argus).1 = her2k_outcome e argus /\
  (her2k_accepted argus ->
   her2k_A_size argus < 0 \/ her2k_C_size argus < 0 ->
   (testing_her2k e argus).1 = Faulted /\
   trace (testing_her2k e argus).2 = her2k_fault_events argus /\
   Forall (fun ev => is_host_alloc ev = true) (trace (testing_her2k e argus).2) /\
   count is_create (trace (testing_her2k e argus).2) = O).
Proof.
  split; [apply her2k_outcome_eq|]. intros Hacc Hsize.
  assert (her2k_size_negative argus = true) as Hneg.
  { unfold her2k_size_negative. destruct Hsize as [Hs|Hs]; apply Z.ltb_lt in Hs;
      rewrite Hs; rewrite ?orb_true_r; reflexivity. }
  rewrite (her2k_fault_run e argus Hacc Hneg). cbn [fst snd trace].
  split; [reflexivity|]. split; [reflexivity|].
  unfold her2k_fault_events.
  destruct (her2k_A_size argus <? 0); split; try reflexivity; forall_events.
Qed.

Lemma X16_her2k_outcome_and_fault_witness :
  (testing_her2k sample_env overflow_arguments).1 = Faulted /\
  trace (testing_her2k sample_env overflow_arguments).2
    = her2k_fault_events overflow_arguments /\
  her2k_fault_events overflow_arguments = [EvHostAlloc hA (-2147479015)].
Proof.
  destruct (proj2 (X16_her2k_outcome_and_fault sample_env overflow_arguments))
    as (Hs & Ht & _).
  - reflexivity.
  - left. vm_compute. reflexivity.
  - split; [exact Hs|]. split; [exact Ht|]. reflexivity.
Defined.

(** X17: when the sanity check and the allocation test of
    testing_sbmv_batched pass, batch_count is not 0 and one of A_size,
    X_size, Y_size is negative, the run faults in the first pass of the
    initialisation loop, at the first host vector with a negative size: it
    returns no status, and hipblasCreate is not followed by a
    hipblasDestroy.  It has called neither the GPU routine nor hipblas_init
    and has copied nothing. *)
Theorem X17_sbmv_negative_size_faults `{Externals} (e : env) (argus : Arguments) :
  sbmv_accepted argus ->
  batch_count argus <> 0 ->
  sbmv_alloc_failed e (sbmv_last argus)
    (sbmv_A_size argus) (sbmv_X_size argus) (sbmv_Y_size argus) = false ->
  sbmv_A_size argus < 0 \/ sbmv_X_size argus < 0 \/ sbmv_Y_size argus < 0 ->
  (testing_sbmv_batched e argus).1 = Faulted /\
  trace (testing_sbmv_batched e argus).2
    = EvCreate :: sbmv_device_allocations argus
      ++ EvSrand 1
      :: sbmv_fault_events (sbmv_A_size argus) (sbmv_X_size argus) (sbmv_Y_size argus) 0 /\
  count is_create (trace (testing_sbmv_batched e argus).2) = 1%nat /\
  count is_destroy (trace (testing_sbmv_batched e argus).2) = O /\
  count is_gpu (trace (testing_sbmv_batched e argus).2) = O.
Proof.
  intros Hacc Hb Halloc Hsize. unfold sbmv_last in Halloc.
  assert (sbmv_size_negative argus = true) as Hneg.
  { unfold sbmv_size_negative, sizes_negative.
    destruct Hsize as [Hs|[Hs|Hs]]; apply Z.ltb_lt in Hs; rewrite Hs;
      rewrite ?orb_true_r; reflexivity. }
  apply Z.eqb_neq in Hb.
  assert (trace (testing_sbmv_batched e argus).2
          = EvCreate :: sbmv_device_allocations argus
            ++ EvSrand 1
            :: sbmv_fault_events (sbmv_A_size argus) (sbmv_X_size argus)
                 (sbmv_Y_size argus) 0) as Htr.
  { rewrite sbmv_trace_exact. unfold sbmv_trace. rewrite Hacc, Hb, Halloc, Hneg.
    reflexivity. }
  split; [|split; [exact Htr|]].
  - rewrite sbmv_outcome_eq. unfold sbmv_outcome. rewrite Hacc, Hb, Halloc, Hneg.
    reflexivity.
  - rewrite Htr. unfold sbmv_device_allocations, sbmv_fault_events.
    destruct (sbmv_A_size argus <? 0), (sbmv_X_size argus <? 0);
      repeat split; cbn [count is_create is_destroy is_gpu]; count_trace; reflexivity.
Qed.

Lemma X17_sbmv_negative_size_faults_witness :
  (testing_sbmv_batched sample_env negative_incx_arguments).1 = Faulted /\
  count is_destroy (trace (testing_sbmv_batched sample_env negative_incx_arguments).2)
    = O.
Proof.
  destruct (X17_sbmv_negative_size_faults sample_env negative_incx_arguments)
    as (Hs & _ & _ & Hd & _).
  - reflexivity.
  - simpl. lia.
  - reflexivity.
  - right; left. vm_compute. reflexivity.
  - split; [exact Hs | exact Hd].
Defined.
